(** * arbiter: rule composition and struct-field validation

    A shallow embedding of the Go packages [arbiter] (src/arbiter.go and the
    field rules of src/unnamed/part_017) and [rule] (src/rule/rule.go,
    src/rule/nil.go and the condition rules of src/unnamed/part_012).  Go
    code that reads or writes memory, or that may panic, becomes a
    computation in a small state-and-panic monad; the package-level variable
    [rule.NotNil] and the caller's slots live in the threaded state. *)

From Stdlib Require Import ZArith Ascii String List Bool.
From stdpp Require Import base decidable option gmap strings list.
Import ListNotations.
Local Open Scope string_scope.
Local Open Scope list_scope.

Set Implicit Arguments.

(** ** Go values, as far as the code inspects them *)

Module reflect.

(** [reflect.Kind], in the order of its declaration. *)
Inductive Kind :=
| Invalid | Bool | Int | Int8 | Int16 | Int32 | Int64
| Uint | Uint8 | Uint16 | Uint32 | Uint64 | Uintptr
| Float32 | Float64 | Complex64 | Complex128
| Array | Chan | Func | Interface | Map | Ptr | Slice
| String | Struct | UnsafePointer.

#[global] Instance Kind_eq_dec : EqDecision Kind.
Proof. solve_decision. Defined.

(** The numeric value of a kind (the constants are an [iota] sequence). *)
Definition Kind_code (k : Kind) : Z :=
  match k with
  | Invalid => 0 | Bool => 1 | Int => 2 | Int8 => 3 | Int16 => 4
  | Int32 => 5 | Int64 => 6 | Uint => 7 | Uint8 => 8 | Uint16 => 9
  | Uint32 => 10 | Uint64 => 11 | Uintptr => 12 | Float32 => 13
  | Float64 => 14 | Complex64 => 15 | Complex128 => 16 | Array => 17
  | Chan => 18 | Func => 19 | Interface => 20 | Map => 21 | Ptr => 22
  | Slice => 23 | String => 24 | Struct => 25 | UnsafePointer => 26
  end%Z.

End reflect.

Module go.

Definition loc := positive.

(** Go types.  [Basic k] is the predeclared type of kind [k] ([int],
    [string], [float64], ...); a type switch case such as [case *int]
    matches [PointerTo (Basic reflect.Int)] and nothing else. *)
Inductive type :=
| Basic (k : reflect.Kind)
| PointerTo (elem : type)
| StructT (name : string)
| SliceOf (elem : type)
| ArrayOf (len : nat) (elem : type)
| MapOf (key elem : type)
| ChanOf (elem : type)
| FuncT (signature : string)
| InterfaceT (name : string)
| Named (name : string) (underlying : type)
| UnsafePointerT.

Fixpoint kind_of (t : type) : reflect.Kind :=
  match t with
  | Basic k => k
  | PointerTo _ => reflect.Ptr
  | StructT _ => reflect.Struct
  | SliceOf _ => reflect.Slice
  | ArrayOf _ _ => reflect.Array
  | MapOf _ _ => reflect.Map
  | ChanOf _ => reflect.Chan
  | FuncT _ => reflect.Func
  | InterfaceT _ => reflect.Interface
  | Named _ u => kind_of u
  | UnsafePointerT => reflect.UnsafePointer
  end.

(** What a value carries besides its type.  [Addr None] is the nil
    pointer (or nil map, slice, channel, function). *)
Inductive data :=
| Znum (z : Z)
| Str (s : string)
| Addr (target : option loc)
| Opaque.

(** The interface type [any]: the nil interface, or a dynamic type
    together with a value of that type. *)
Inductive any :=
| untyped_nil
| box (t : type) (d : data).

(** Go's [error]: [nil_error] is the nil interface (success); the two
    other constructors are the values built by [errors.New] and
    [fmt.Errorf].  Formatting is Go's standard library and stays
    symbolic: an error made by [fmt.Errorf] is known by its format and
    operands. *)
Inductive error :=
| nil_error
| errors_New (text : string)
| fmt_Errorf (format : string) (a : list any).

Definition is_nil (err : error) : bool :=
  match err with nil_error => true | _ => false end.

Fixpoint has_verb (format : string) : bool :=
  match format with
  | EmptyString => false
  | String c rest => if Ascii.eqb c "%"%char then true else has_verb rest
  end.

(** [err.Error()].  Of Go's formatting only one fact is used: a format
    without ['%'] and without operands is printed as it stands.  Every
    other format is left uninterpreted ([None]). *)
Definition Error (err : error) : option string :=
  match err with
  | nil_error => None
  | errors_New text => Some text
  | fmt_Errorf format [] => if has_verb format then None else Some format
  | fmt_Errorf _ (_ :: _) => None
  end.

(** [reflect.Value]: the zero Value, or a type with its data. *)
Inductive Value :=
| zeroValue
| val (t : type) (d : data).

Definition ValueOf (i : any) : Value :=
  match i with
  | untyped_nil => zeroValue
  | box t d => val t d
  end.

Definition Kind (v : Value) : reflect.Kind :=
  match v with
  | zeroValue => reflect.Invalid
  | val t _ => kind_of t
  end.

Definition nil_data (d : data) : bool :=
  match d with Addr None => true | _ => false end.

(** [Value.IsNil]: panics ([None]) unless the kind is chan, func,
    interface, map, pointer, slice or unsafe pointer. *)
Definition IsNil (v : Value) : option bool :=
  match v with
  | zeroValue => None
  | val t d =>
      match kind_of t with
      | reflect.Chan | reflect.Func | reflect.Interface | reflect.Map
      | reflect.Ptr | reflect.Slice | reflect.UnsafePointer => Some (nil_data d)
      | _ => None
      end
  end.

Fixpoint pointee (t : type) : option type :=
  match t with
  | PointerTo elem => Some elem
  | Named _ u => pointee u
  | _ => None
  end.

(** [Value.Elem] of a pointer: the zero Value for a nil pointer, else
    the value pointed to (of which only the type is modelled).  [Elem]
    of an interface value is not needed here; other kinds panic. *)
Definition Elem (v : Value) : option Value :=
  match v with
  | zeroValue => None
  | val t d =>
      match pointee t with
      | Some elem => Some (if nil_data d then zeroValue else val elem Opaque)
      | None => None
      end
  end.

End go.

Import go.

(** ** Program state and computations *)

(** [rule.NilRule] (rule/nil.go): the fields [not] and [e]. *)
Record NilRule := mkNilRule { nil_not : bool; nil_e : error }.

Section Exec.

Context {V : Type}.

(** The state a validation runs in: the object the package variable
    [rule.NotNil] points to, and the caller's memory, whose cells hold
    values of type [V]. *)
Record State := mkState { rule_NotNil : NilRule; mem : gmap loc V }.

Inductive Res (A : Type) :=
| Ret (a : A) (s : State)
| Panic.

Definition M (A : Type) := State -> Res A.

Definition ret {A} (a : A) : M A := fun s => Ret a s.

Definition bind {A B} (m : M A) (k : A -> M B) : M B :=
  fun s => match m s with
           | Ret a s' => k a s'
           | Panic _ => Panic _
           end.

Definition panic {A} : M A := fun _ => Panic _.

(** A step of Go that either yields a value or panics. *)
Definition or_panic {A} (o : option A) : M A :=
  match o with
  | Some a => ret a
  | None => panic
  end.

(** [*p] for a pointer [p] to a cell: a nil pointer panics. *)
Definition deref (p : option loc) : M V :=
  fun s => match p with
           | Some l => match mem s !! l with
                       | Some x => Ret x s
                       | None => Panic _
                       end
           | None => Panic _
           end.

(** [*p = x], an assignment by the caller. *)
Definition assign (l : loc) (x : V) (s : State) : State :=
  {| rule_NotNil := rule_NotNil s; mem := <[l := x]> (mem s) |}.

End Exec.

Arguments State : clear implicits.
Arguments Res : clear implicits.
Arguments M : clear implicits.
Arguments Panic {V A}.
Arguments assign {V} l%_positive x s.

Notation "'let*' x := m 'in' k" := (bind m (fun x => k))
  (at level 10, x name, m at level 200, k at level 200).

(** ** Package rule *)

Module rule.

(** rule.go: the interface [Rule[T]], one method [Validate(value T) error].
    A rule is known by what its [Validate] does when called: it may read
    and write the state, and it may panic (as a nil interface would). *)
Definition Rule (V T : Type) := T -> M V error.

(** *** nil.go *)

Definition ErrNil : error := errors_New "must be nil".
Definition ErrNotNil : error := errors_New "must not be nil".

(** The object [NotNil] points to when the package is initialised. *)
Definition NotNil_init : NilRule := {| nil_e := ErrNotNil; nil_not := true |}.

(** The object [Nil] points to when the package is initialised. *)
Definition Nil_init : NilRule := {| nil_e := ErrNil; nil_not := false |}.

Module NilRule.
Section Methods.
Context {V : Type}.

(** Cases [string], [int], ..., [bool] of the type switch ([float64]
    has no case of its own). *)
Definition value_case (k : reflect.Kind) : bool :=
  match k with
  | reflect.String | reflect.Int | reflect.Int8 | reflect.Int16
  | reflect.Int32 | reflect.Int64 | reflect.Uint | reflect.Uint8
  | reflect.Uint16 | reflect.Uint32 | reflect.Uint64
  | reflect.Float32 | reflect.Bool => true
  | _ => false
  end.

(** Cases [*string], [*int], ..., [*float64], [*bool]. *)
Definition pointer_case (k : reflect.Kind) : bool :=
  match k with
  | reflect.String | reflect.Int | reflect.Int8 | reflect.Int16
  | reflect.Int32 | reflect.Int64 | reflect.Uint | reflect.Uint8
  | reflect.Uint16 | reflect.Uint32 | reflect.Uint64
  | reflect.Float32 | reflect.Float64 | reflect.Bool => true
  | _ => false
  end.

Definition Kind_as_any (k : reflect.Kind) : any :=
  box (Named "reflect.Kind" (Basic reflect.Uint)) (Znum (reflect.Kind_code k)).

Definition Validate (r : NilRule) (value : any) : M V error :=
  let finish (isNil : bool) : M V error :=
    if (nil_not r && isNil) || (negb (nil_not r) && negb isNil)
    then ret (nil_e r) else ret nil_error in
  let by_reflection : M V error :=
    let rv := ValueOf value in
    match Kind rv with
    | reflect.Ptr | reflect.Interface | reflect.Map | reflect.Func
    | reflect.Array | reflect.Chan | reflect.Slice =>
        match IsNil rv with
        | Some isNil => finish isNil
        | None => panic
        end
    | k => ret (fmt_Errorf "unsupported type: %v" [Kind_as_any k])
    end in
  match value with
  | untyped_nil => finish true
  | box (Basic k) _ =>
      if value_case k then finish false else by_reflection
  | box (PointerTo (Basic k)) d =>
      if pointer_case k then finish (nil_data d) else by_reflection
  | box _ _ => by_reflection
  end.

(** [Errf] assigns through the receiver; this is the receiver's
    object after the call. *)
Definition Errf (r : NilRule) (format : string) (args : list any) : NilRule :=
  if decide (format = "") then r
  else {| nil_not := nil_not r; nil_e := fmt_Errorf format args |}.

End Methods.
End NilRule.

Section NotNil.
Context {V : Type}.

(** The package variable [NotNil] used as a rule: a call of its
    [Validate] reads the shared object as it is at that moment. *)
Definition NotNil : Rule V any :=
  fun value s => NilRule.Validate (rule_NotNil s) value s.

(** [NotNil.Errf(format, args...)]: writes the shared object and
    returns the same pointer. *)
Definition NotNil_Errf (format : string) (args : list any) : M V (Rule V any) :=
  fun s => Ret NotNil
             {| rule_NotNil := NilRule.Errf (rule_NotNil s) format args;
                mem := mem s |}.
End NotNil.

(** *** Condition rules (src/unnamed/part_012)

    A method takes its receiver as the object the pointer refers to.
    The rules held by a compound rule act on the state, which does not
    contain the compound rule itself. *)

Definition ErrCondition : error := errors_New "condition validation failed".
Definition ErrDependency : error := errors_New "dependency validation failed".
Definition ErrMutualExclude : error := errors_New "mutual exclude validation failed".

Module ConditionRule.
Section Methods.
Context {V T : Type}.

Record t := mk { e : error; operator : string; rules : list (Rule V T) }.

(** The loop of case ["AND"]. *)
Fixpoint and_loop (own : error) (rs : list (Rule V T)) (value : T) : M V error :=
  match rs with
  | [] => ret nil_error
  | rule :: rest =>
      let* err := rule value in
      if negb (is_nil err) then ret own else and_loop own rest value
  end.

(** The loop of case ["OR"]. *)
Fixpoint or_loop (own : error) (rs : list (Rule V T)) (value : T) : M V error :=
  match rs with
  | [] => ret own
  | rule :: rest =>
      let* err := rule value in
      if is_nil err then ret nil_error else or_loop own rest value
  end.

Definition Validate (r : t) (value : T) : M V error :=
  if decide (operator r = "AND") then and_loop (e r) (rules r) value
  else if decide (operator r = "OR") then or_loop (e r) (rules r) value
  else ret (e r).

Definition Errf (r : t) (format : string) (args : list any) : t :=
  if decide (format = "") then r
  else {| e := fmt_Errorf format args; operator := operator r; rules := rules r |}.

End Methods.
Arguments t : clear implicits.
End ConditionRule.

Definition And {V T} (rules : list (Rule V T)) : ConditionRule.t V T :=
  {| ConditionRule.e := ErrCondition;
     ConditionRule.operator := "AND";
     ConditionRule.rules := rules |}.

Definition Or {V T} (rules : list (Rule V T)) : ConditionRule.t V T :=
  {| ConditionRule.e := ErrCondition;
     ConditionRule.operator := "OR";
     ConditionRule.rules := rules |}.

Module DependencyRule.
Section Methods.
Context {V T D : Type}.

(** [validator] is an interface and [valueGetter] a func value: both
    may be nil ([None]). *)
Record t := mk {
  e : error;
  field : string;
  dependency : string;
  validator : option (Rule V D);
  valueGetter : option (T -> M V D)
}.

Definition Validate (r : t) (value : T) : M V error :=
  match validator r with
  | None => ret nil_error
  | Some validate =>
      let* dependencyValue := match valueGetter r with
                         | Some get => get value
                         | None => panic
                         end in
      validate dependencyValue
  end.

Definition Errf (r : t) (format : string) (args : list any) : t :=
  if decide (format = "") then r
  else {| e := fmt_Errorf format args; field := field r;
          dependency := dependency r; validator := validator r;
          valueGetter := valueGetter r |}.

End Methods.
Arguments t : clear implicits.
End DependencyRule.

Definition Dependency {V T D} (field dependency : string)
    (validator : option (Rule V D)) (valueGetter : option (T -> M V D))
    : DependencyRule.t V T D :=
  {| DependencyRule.e := ErrDependency;
     DependencyRule.field := field;
     DependencyRule.dependency := dependency;
     DependencyRule.validator := validator;
     DependencyRule.valueGetter := valueGetter |}.

Module MutualExcludeRule.
Section Methods.
Context {V T : Type}.

Record t := mk {
  e : error;
  fields : list string;
  values : list T;
  compare : option (T -> T -> bool)
}.

(** The scan that sets [valid], leaving at the first match. *)
Fixpoint scan (cmp : T -> T -> bool) (vs : list T) (value : T) : bool :=
  match vs with
  | [] => false
  | v :: rest => if cmp v value then true else scan cmp rest value
  end.

Definition Validate (r : t) (value : T) : M V error :=
  match compare r with
  | None => ret nil_error
  | Some cmp =>
      let valid := scan cmp (values r) value in
      if negb valid then ret (e r) else ret nil_error
  end.

Definition Errf (r : t) (format : string) (args : list any) : t :=
  if decide (format = "") then r
  else {| e := fmt_Errorf format args; fields := fields r;
          values := values r; compare := compare r |}.

End Methods.
Arguments t : clear implicits.
Arguments Validate {V T} r value.
End MutualExcludeRule.

Definition MutualExclude {T} (fields : list string) (values : list T)
    (compare : option (T -> T -> bool)) : MutualExcludeRule.t T :=
  {| MutualExcludeRule.e := ErrMutualExclude;
     MutualExcludeRule.fields := fields;
     MutualExcludeRule.values := values;
     MutualExcludeRule.compare := compare |}.

(** *** Numeric leaf rules

    The generic rules are taken at the instance [T = int]; an [int] is
    modelled by its value, an integer of [Z] (the rules only compare
    values and take remainders, neither of which overflows). *)

Definition int_any (z : Z) : any := box (Basic reflect.Int) (Znum z).

Definition ErrMin : error := errors_New "value is less than minimum".
Definition ErrMax : error := errors_New "value is greater than maximum".

Module MinRule.
Section Methods.
Context {V : Type}.

Record t := mk { min : Z; e : error }.

Definition Validate (r : t) (value : Z) : M V error :=
  if (value <? min r)%Z then
    if negb (is_nil (e r)) then ret (e r)
    else ret (fmt_Errorf "value %v is less than minimum %v"
                [int_any value; int_any (min r)])
  else ret nil_error.

Definition Errf (r : t) (format : string) (args : list any) : t :=
  if decide (format = "") then r
  else {| min := min r; e := fmt_Errorf format args |}.

End Methods.
End MinRule.

Definition Min (min : Z) : MinRule.t := {| MinRule.min := min; MinRule.e := ErrMin |}.

Module MaxRule.
Section Methods.
Context {V : Type}.

Record t := mk { max : Z; e : error }.

Definition Validate (r : t) (value : Z) : M V error :=
  if (value >? max r)%Z then
    if negb (is_nil (e r)) then ret (e r)
    else ret (fmt_Errorf "value %v is greater than maximum %v"
                [int_any value; int_any (max r)])
  else ret nil_error.

Definition Errf (r : t) (format : string) (args : list any) : t :=
  if decide (format = "") then r
  else {| max := max r; e := fmt_Errorf format args |}.

End Methods.
End MaxRule.

Definition Max (max : Z) : MaxRule.t := {| MaxRule.max := max; MaxRule.e := ErrMax |}.

Definition ErrBetweenFormat : string := "is not between %v and %v".

Module BetweenRule.
Section Methods.
Context {V : Type}.

Record t := mk { min : Z; max : Z; e : error }.

Definition Validate (r : t) (value : Z) : M V error :=
  if (value <? min r)%Z || (value >? max r)%Z then
    if negb (is_nil (e r)) then ret (e r)
    else ret (fmt_Errorf "value %v is not between %v and %v"
                [int_any value; int_any (min r); int_any (max r)])
  else ret nil_error.

End Methods.
End BetweenRule.

Definition Between (min max : Z) : BetweenRule.t :=
  {| BetweenRule.min := min; BetweenRule.max := max;
     BetweenRule.e := fmt_Errorf ErrBetweenFormat [int_any min; int_any max] |}.

Definition ErrEven : error := errors_New "value must be even".
Definition ErrOdd : error := errors_New "value must be odd".

(** Go's [%] truncates toward zero: it is [Z.rem]. *)
Module EvenRule.
Section Methods.
Context {V : Type}.

Record t := mk { e : error }.

Definition Validate (r : t) (value : Z) : M V error :=
  if negb (Z.rem value 2 =? 0)%Z then
    if negb (is_nil (e r)) then ret (e r) else ret ErrEven
  else ret nil_error.

End Methods.
End EvenRule.

Definition Even : EvenRule.t := {| EvenRule.e := ErrEven |}.

Module OddRule.
Section Methods.
Context {V : Type}.

Record t := mk { e : error }.

Definition Validate (r : t) (value : Z) : M V error :=
  if (Z.rem value 2 =? 0)%Z then
    if negb (is_nil (e r)) then ret (e r) else ret ErrOdd
  else ret nil_error.

End Methods.
End OddRule.

Definition Odd : OddRule.t := {| OddRule.e := ErrOdd |}.

Definition ErrMultipleFormat : string := "is not a multiple of %v".

Module MultipleRule.
Section Methods.
Context {V : Type}.

Record t := mk { base : Z; e : error }.

(** [value % r.base] panics when [r.base] is zero. *)
Definition Validate (r : t) (value : Z) : M V error :=
  let* remainder := (if (base r =? 0)%Z then panic else ret (Z.rem value (base r))) in
  if negb (remainder =? 0)%Z then ret (e r) else ret nil_error.

End Methods.
End MultipleRule.

Definition MultipleOf (base : Z) : MultipleRule.t :=
  {| MultipleRule.base := base;
     MultipleRule.e := fmt_Errorf ErrMultipleFormat [int_any base] |}.

Definition ErrIn : error := errors_New "must be in the list".
Definition ErrNotIn : error := errors_New "must not be in the list".

Module InRule.
Section Methods.
Context {V : Type}.

Record t := mk { values : list Z; notIn : bool; e : error }.

(** [slices.Contains]: some element is [==] to [v]. *)
Fixpoint Contains (s : list Z) (v : Z) : bool :=
  match s with
  | [] => false
  | x :: rest => if (v =? x)%Z then true else Contains rest v
  end.

Definition Validate (r : t) (value : Z) : M V error :=
  let isIn := Contains (values r) value in
  if Bool.eqb isIn (notIn r) then
    if negb (is_nil (e r)) then ret (e r) else ret ErrIn
  else ret nil_error.

End Methods.
End InRule.

Definition In (values : list Z) : InRule.t :=
  {| InRule.e := ErrIn; InRule.values := values; InRule.notIn := false |}.

Definition NotIn (values : list Z) : InRule.t :=
  {| InRule.e := ErrNotIn; InRule.values := values; InRule.notIn := true |}.

End rule.

(** ** Package arbiter *)

Module arbiter.

(** The interface [IFieldRule], one method [validate() error]
    (src/unnamed/part_017). *)
Definition IFieldRule (V : Type) := M V error.

Module FieldRule.
Section Methods.
Context {V : Type}.

(** [field] is a [*T]; the slots of the caller's memory have type [V]. *)
Record t := mk { field : option loc; rules : list (rule.Rule V V) }.

(** The loop of [validate]; [*f.field] is evaluated at each call of
    a rule. *)
Fixpoint loop (p : option loc) (rs : list (rule.Rule V V)) : M V error :=
  match rs with
  | [] => ret nil_error
  | rule :: rest =>
      let* x := deref p in
      let* err := rule x in
      if negb (is_nil err) then ret err else loop p rest
  end.

Definition validate (f : t) : IFieldRule V := loop (field f) (rules f).

End Methods.
Arguments t : clear implicits.
End FieldRule.

Definition Field {V} (field : option loc) (rules : list (rule.Rule V V))
    : FieldRule.t V :=
  {| FieldRule.field := field; FieldRule.rules := rules |}.

Section Orchestration.
Context {V : Type}.

Fixpoint Validate {T} (value : T) (rules : list (rule.Rule V T)) : M V error :=
  match rules with
  | [] => ret nil_error
  | rule :: rest =>
      let* err := rule value in
      if negb (is_nil err) then ret err else Validate value rest
  end.

(** The loop of [ValidateWithErrs], [errs] being the slice so far. *)
Fixpoint collect {T} (value : T) (rules : list (rule.Rule V T))
    (errs : list error) : M V (list error) :=
  match rules with
  | [] => ret errs
  | rule :: rest =>
      let* err := rule value in
      if negb (is_nil err) then collect value rest (errs ++ [err])
      else collect value rest errs
  end.

Definition ValidateWithErrs {T} (value : T) (rules : list (rule.Rule V T))
    : M V (list error) :=
  collect value rules [].

(** [v.Kind() != reflect.Ptr || (!v.IsNil() && v.Elem().Kind() != reflect.Struct)],
    evaluated left to right; [None] if a reflect call panics. *)
Definition not_struct_pointer (v : Value) : option bool :=
  if bool_decide (Kind v <> reflect.Ptr) then Some true
  else match IsNil v with
       | None => None
       | Some isNil =>
           if negb isNil then
             match Elem v with
             | Some pointee => Some (bool_decide (Kind pointee <> reflect.Struct))
             | None => None
             end
           else Some false
       end.

(** The loop over the field rules. *)
Fixpoint validate_fields (fields : list (IFieldRule V)) : M V error :=
  match fields with
  | [] => ret nil_error
  | field :: rest =>
      let* err := field in
      if negb (is_nil err) then ret err else validate_fields rest
  end.

Definition ValidateStruct (value : any) (nilErr : string)
    (fields : list (IFieldRule V)) : M V error :=
  let v := ValueOf value in
  let* wrong := or_panic (not_struct_pointer v) in
  if (wrong : bool) then ret (errors_New "value must be a pointer")
  else
    let* notNil := rule.NotNil_Errf nilErr [] in
    let* err := Validate value [notNil] in
    if negb (is_nil err) then ret err
    else validate_fields fields.

End Orchestration.

End arbiter.

(** ** Stubs and states used in concrete runs *)

Module stub.

(** The memory of a fresh process, with [rule.NotNil] as initialised. *)
Definition init {V} : State V :=
  {| rule_NotNil := rule.NotNil_init; mem := ∅ |}.

(** A rule that returns [result] whatever the value. *)
Definition always {V T} (result : error) : rule.Rule V T :=
  fun _ => ret result.

(** A rule that adds one to the cell [counter] each time it is
    invoked, and returns [result]. *)
Definition counting {T} (counter : loc) (result : error) : rule.Rule Z T :=
  fun _ s => Ret result (assign counter (1 + default 0 (mem s !! counter))%Z s).

Arguments counting {T} counter%_positive result.

(** A field binding with the same effect. *)
Definition counting_field (counter : loc) (result : error)
    : arbiter.IFieldRule Z :=
  counting counter result tt.

(** A rule on integers: [value >= min], else [failure]. *)
Definition at_least {V} (min : Z) (failure : error) : rule.Rule V Z :=
  fun value => ret (if (value <? min)%Z then failure else nil_error).

Arguments counting_field counter%_positive result.

Definition nil_pointer (t : type) : any := box (PointerTo t) (Addr None).

Definition Person : type := StructT "Person".

(** [type User struct { Name string }] of the tests. *)
Record User := mkUser { Name : string }.

End stub.

(** ** Invocation sequences *)

Section Calls.
Context {V T : Type}.

(** [calls value rs s outs s']: starting in [s], the rules [rs] are
    invoked on [value] one after the other, each in the state the
    previous one left; [outs] are the errors they return, in order, and
    [s'] is the state after the last call. *)
Inductive calls (value : T)
  : list (rule.Rule V T) -> State V -> list error -> State V -> Prop :=
| calls_nil s : calls value [] s [] s
| calls_cons r rs s out s1 outs s2 :
    r value s = Ret out s1 ->
    calls value rs s1 outs s2 ->
    calls value (r :: rs) s (out :: outs) s2.

Definition passed (outs : list error) : Prop := Forall (fun out => out = nil_error) outs.
Definition failed (outs : list error) : Prop := Forall (fun out => out <> nil_error) outs.

(** The non-nil errors of [outs], in order. *)
Definition failures (outs : list error) : list error :=
  List.filter (fun out => negb (is_nil out)) outs.

End Calls.

Section SlotCalls.
Context {V : Type}.

(** As [calls], for rules bound to the slot [p]: each rule is invoked
    on what the slot holds at the moment of its call. *)
Inductive slot_calls (p : loc)
  : list (rule.Rule V V) -> State V -> list error -> State V -> Prop :=
| slot_calls_nil s : slot_calls p [] s [] s
| slot_calls_cons r rs s x out s1 outs s2 :
    mem s !! p = Some x ->
    r x s = Ret out s1 ->
    slot_calls p rs s1 outs s2 ->
    slot_calls p (r :: rs) s (out :: outs) s2.

(** A rule that never writes the slot [p]. *)
Definition keeps_slot (p : loc) (r : rule.Rule V V) : Prop :=
  forall value s out s', r value s = Ret out s' -> mem s' !! p = mem s !! p.

End SlotCalls.

Section FieldCalls.
Context {V : Type}.

(** As [calls], for the field bindings handed to [ValidateStruct]. *)
Inductive field_calls
  : list (arbiter.IFieldRule V) -> State V -> list error -> State V -> Prop :=
| field_calls_nil s : field_calls [] s [] s
| field_calls_cons f fs s out s1 outs s2 :
    f s = Ret out s1 ->
    field_calls fs s1 outs s2 ->
    field_calls (f :: fs) s (out :: outs) s2.

(** The state after [rule.NotNil.Errf(nilErr)]. *)
Definition with_message (nilErr : string) (s : State V) : State V :=
  {| rule_NotNil := rule.NilRule.Errf (rule_NotNil s) nilErr []; mem := mem s |}.

(** The kinds for which [NilRule.Validate] asks [IsNil] and [IsNil]
    answers. *)
Definition nilable (k : reflect.Kind) : bool :=
  match k with
  | reflect.Ptr | reflect.Map | reflect.Func | reflect.Chan | reflect.Slice => true
  | _ => false
  end.

(** A type with a case of its own in the type switch of
    [NilRule.Validate]. *)
Definition switch_case (t : type) : bool :=
  match t with
  | Basic k => rule.NilRule.value_case k
  | PointerTo (Basic k) => rule.NilRule.pointer_case k
  | _ => false
  end.

(** What [NilRule.Validate] returns once [isNil] is known. *)
Definition verdict (r : NilRule) (isNil : bool) : error :=
  if Bool.eqb (nil_not r) isNil then nil_e r else nil_error.


End FieldCalls.

(** The shared [NotNil] object is as the package leaves it: [not] is
    set, and [e] is [ErrNotNil] or a value made by [Errf]. *)
Definition NotNil_ok {V} (s : State V) : Prop :=
  nil_not (rule_NotNil s) = true /\
  (nil_e (rule_NotNil s) = rule.ErrNotNil \/
   exists format args, nil_e (rule_NotNil s) = fmt_Errorf format args).

(** ** Lemmas on the loops *)

Ltac run_call H := unfold bind; rewrite H; cbn [is_nil negb].


Section Loops.
Context {V T : Type}.
Implicit Types (value : T) (rs pre post : list (rule.Rule V T)) (s : State V).

Lemma is_nil_false (err : error) : err <> nil_error -> is_nil err = false.
Proof. destruct err; [congruence | reflexivity | reflexivity]. Qed.

Lemma and_loop_all_pass own value rs s outs s' :
  calls value rs s outs s' -> passed outs ->
  rule.ConditionRule.and_loop own rs value s = Ret nil_error s'.
Proof.
  induction 1 as [s | r rs s out s1 outs s2 Hr _ IH]; intros Hp.
  - reflexivity.
  - apply Forall_cons_1 in Hp as [-> Hp]. cbn. run_call Hr. auto.
Qed.

Lemma and_loop_first_failure own value pre c post s outs s1 err s2 :
  calls value pre s outs s1 -> passed outs ->
  c value s1 = Ret err s2 -> err <> nil_error ->
  rule.ConditionRule.and_loop own (pre ++ c :: post) value s = Ret own s2.
Proof.
  intros Hc Hp Hfail Herr. induction Hc as [s | r rs s out s1 outs s3 Hr _ IH].
  - cbn. run_call Hfail. now rewrite (is_nil_false Herr).
  - apply Forall_cons_1 in Hp as [-> Hp]. cbn. run_call Hr. auto.
Qed.

Lemma or_loop_all_fail own value rs s outs s' :
  calls value rs s outs s' -> failed outs ->
  rule.ConditionRule.or_loop own rs value s = Ret own s'.
Proof.
  induction 1 as [s | r rs s out s1 outs s2 Hr _ IH]; intros Hf.
  - reflexivity.
  - apply Forall_cons_1 in Hf as [Hout Hf]. cbn. run_call Hr.
    rewrite (is_nil_false Hout). auto.
Qed.

Lemma or_loop_first_success own value pre c post s outs s1 s2 :
  calls value pre s outs s1 -> failed outs ->
  c value s1 = Ret nil_error s2 ->
  rule.ConditionRule.or_loop own (pre ++ c :: post) value s = Ret nil_error s2.
Proof.
  intros Hc Hf Hpass. induction Hc as [s | r rs s out s1 outs s3 Hr _ IH].
  - cbn. now run_call Hpass.
  - apply Forall_cons_1 in Hf as [Hout Hf]. cbn. run_call Hr.
    rewrite (is_nil_false Hout). auto.
Qed.

Lemma Validate_all_pass value rs s outs s' :
  calls value rs s outs s' -> passed outs ->
  arbiter.Validate value rs s = Ret nil_error s'.
Proof.
  induction 1 as [s | r rs s out s1 outs s2 Hr _ IH]; intros Hp.
  - reflexivity.
  - apply Forall_cons_1 in Hp as [-> Hp]. cbn. run_call Hr. auto.
Qed.

Lemma Validate_first_failure value pre c post s outs s1 err s2 :
  calls value pre s outs s1 -> passed outs ->
  c value s1 = Ret err s2 -> err <> nil_error ->
  arbiter.Validate value (pre ++ c :: post) s = Ret err s2.
Proof.
  intros Hc Hp Hfail Herr. induction Hc as [s | r rs s out s1 outs s3 Hr _ IH].
  - cbn. run_call Hfail. now rewrite (is_nil_false Herr).
  - apply Forall_cons_1 in Hp as [-> Hp]. cbn. run_call Hr. auto.
Qed.

Lemma failures_cons_nil outs : failures (nil_error :: outs) = failures outs.
Proof. reflexivity. Qed.

Lemma failures_cons_err out outs :
  out <> nil_error -> failures (out :: outs) = out :: failures outs.
Proof. intros H. unfold failures. cbn. now rewrite (is_nil_false H). Qed.

Lemma collect_calls value rs s outs s' errs :
  calls value rs s outs s' ->
  arbiter.collect value rs errs s = Ret (errs ++ failures outs) s'.
Proof.
  intros Hc. revert errs.
  induction Hc as [s | r rs s out s1 outs s2 Hr _ IH]; intros errs.
  - cbn. now rewrite app_nil_r.
  - cbn [arbiter.collect]. run_call Hr.
    destruct out as [| text | format a]; cbn [is_nil negb]; rewrite IH.
    + reflexivity.
    + now rewrite <- app_assoc.
    + now rewrite <- app_assoc.
Qed.

Lemma calls_length value rs s outs s' :
  calls value rs s outs s' -> length outs = length rs.
Proof. induction 1; cbn; congruence. Qed.

Lemma failures_nil_iff outs : failures outs = [] <-> passed outs.
Proof.
  induction outs as [| out outs IH].
  - split; [constructor | reflexivity].
  - destruct out as [| text | format a].
    + rewrite failures_cons_nil, IH. split.
      * intros H. now constructor.
      * intros H. now apply Forall_cons_1 in H as [_ H].
    + rewrite failures_cons_err by discriminate. split; [discriminate |].
      intros H. apply Forall_cons_1 in H as [H _]. discriminate.
    + rewrite failures_cons_err by discriminate. split; [discriminate |].
      intros H. apply Forall_cons_1 in H as [H _]. discriminate.
Qed.

End Loops.

(** ** Compound rules *)

(** C3. [And(children).Validate(value)] calls the children in order.  If
    the children before [c] all return nil and [c] returns an error, the
    result is the compound rule's own error ([ErrCondition], or the
    error installed by [Errf]) whatever error [c] returned, in the state
    [c] left: the children after [c] are not called.  If every child
    returns nil the result is nil, and with no children it is nil. *)
Theorem And_Validate {V T} (value : T) (children : list (rule.Rule V T)) :
  (forall pre c post s outs s1 err s2,
      children = pre ++ c :: post ->
      calls value pre s outs s1 -> passed outs ->
      c value s1 = Ret err s2 -> err <> nil_error ->
      rule.ConditionRule.Validate (rule.And children) value s
        = Ret rule.ErrCondition s2 /\
      forall format args, format <> "" ->
        rule.ConditionRule.Validate
          (rule.ConditionRule.Errf (rule.And children) format args) value s
          = Ret (fmt_Errorf format args) s2) /\
  (forall s outs s',
      calls value children s outs s' -> passed outs ->
      rule.ConditionRule.Validate (rule.And children) value s = Ret nil_error s') /\
  (forall s : State V,
      rule.ConditionRule.Validate (rule.And []) value s = Ret nil_error s).
Proof.
  split; [| split].
  - intros pre c post s outs s1 err s2 -> Hc Hp Hfail Herr. split.
    + eapply and_loop_first_failure; eassumption.
    + intros format args Hne. unfold rule.ConditionRule.Errf.
      destruct (decide (format = "")) as [Heq | _]; [contradiction |].
      eapply and_loop_first_failure; eassumption.
  - intros s outs s' Hc Hp. eapply and_loop_all_pass; eassumption.
  - reflexivity.
Qed.

(** Children [pass, fail, pass] that count their calls: the result is
    [ErrCondition] and the counter stands at 2. *)
Lemma And_Validate_witness :
  rule.ConditionRule.Validate
    (rule.And [stub.counting 1 nil_error;
               stub.counting 1 (errors_New "second");
               stub.counting 1 nil_error])
    tt stub.init
  = Ret rule.ErrCondition (assign 1%positive 2%Z stub.init).
Proof.
  refine (proj1 (proj1 (And_Validate (V := Z) tt _)
            [stub.counting 1 nil_error] (stub.counting 1 (errors_New "second"))
            [stub.counting 1 nil_error] stub.init [nil_error]
            (assign 1%positive 1%Z stub.init) (errors_New "second") _
            eq_refl _ _ _ _)).
  - eapply calls_cons; [reflexivity | apply calls_nil].
  - repeat constructor.
  - reflexivity.
  - discriminate.
Defined.

(** C4. [Or(children).Validate(value)] calls the children in order.  If
    the children before [c] all return an error and [c] returns nil, the
    result is nil in the state [c] left: the children after [c] are not
    called.  If every child returns an error the result is the compound
    rule's own error ([ErrCondition], or the one installed by [Errf]),
    whatever the children returned; with no children it is that error. *)
Theorem Or_Validate {V T} (value : T) (children : list (rule.Rule V T)) :
  (forall pre c post s outs s1 s2,
      children = pre ++ c :: post ->
      calls value pre s outs s1 -> failed outs ->
      c value s1 = Ret nil_error s2 ->
      rule.ConditionRule.Validate (rule.Or children) value s = Ret nil_error s2) /\
  (forall s outs s',
      calls value children s outs s' -> failed outs ->
      rule.ConditionRule.Validate (rule.Or children) value s
        = Ret rule.ErrCondition s' /\
      forall format args, format <> "" ->
        rule.ConditionRule.Validate
          (rule.ConditionRule.Errf (rule.Or children) format args) value s
          = Ret (fmt_Errorf format args) s') /\
  (forall s : State V,
      rule.ConditionRule.Validate (rule.Or []) value s = Ret rule.ErrCondition s).
Proof.
  split; [| split].
  - intros pre c post s outs s1 s2 -> Hc Hf Hpass.
    eapply or_loop_first_success; eassumption.
  - intros s outs s' Hc Hf. split.
    + eapply or_loop_all_fail; eassumption.
    + intros format args Hne. unfold rule.ConditionRule.Errf.
      destruct (decide (format = "")) as [Heq | _]; [contradiction |].
      eapply or_loop_all_fail; eassumption.
  - reflexivity.
Qed.

(** Children [fail, pass, fail] that count their calls: the result is
    nil and the counter stands at 2. *)
Lemma Or_Validate_witness :
  rule.ConditionRule.Validate
    (rule.Or [stub.counting 1 (errors_New "first");
              stub.counting 1 nil_error;
              stub.counting 1 (errors_New "third")])
    tt stub.init
  = Ret nil_error (assign 1 2%Z stub.init).
Proof.
  refine (proj1 (Or_Validate (V := Z) tt _)
            [stub.counting 1 (errors_New "first")] (stub.counting 1 nil_error)
            [stub.counting 1 (errors_New "third")] stub.init
            [errors_New "first"] (assign 1 1%Z stub.init) _
            eq_refl _ _ _).
  - eapply calls_cons; [reflexivity | apply calls_nil].
  - repeat constructor. discriminate.
  - reflexivity.
Defined.

(** ** Orchestration *)

(** C5. [ValidateWithErrs] calls every rule of the list, in order, and
    returns the non-nil errors among the results, in that order; the
    returned list is empty exactly when every rule returned nil; for
    rules [fail, fail, pass, fail] it has the three errors. *)
Theorem ValidateWithErrs_collects {V T} (value : T) (rules : list (rule.Rule V T))
    (s : State V) (outs : list error) (s' : State V) :
  calls value rules s outs s' ->
  arbiter.ValidateWithErrs value rules s = Ret (failures outs) s' /\
  length outs = length rules /\
  (failures outs = [] <-> passed outs) /\
  (forall e1 e2 e3, e1 <> nil_error -> e2 <> nil_error -> e3 <> nil_error ->
     arbiter.ValidateWithErrs value
       [stub.always e1; stub.always e2; stub.always nil_error; stub.always e3] s
     = Ret [e1; e2; e3] s).
Proof.
  intros Hc. repeat split.
  - exact (collect_calls [] Hc).
  - exact (calls_length Hc).
  - apply failures_nil_iff.
  - apply failures_nil_iff.
  - intros e1 e2 e3 H1 H2 H3. unfold arbiter.ValidateWithErrs.
    cbn. unfold bind, stub.always, ret.
    rewrite (is_nil_false H1), (is_nil_false H2), (is_nil_false H3).
    reflexivity.
Qed.

(** Rules [fail, fail, pass, fail] that count their calls: three errors
    come back, in order, and the counter stands at 4. *)
Lemma ValidateWithErrs_collects_witness :
  arbiter.ValidateWithErrs tt
    [stub.counting 1 (errors_New "a"); stub.counting 1 (errors_New "b");
     stub.counting 1 nil_error; stub.counting 1 (errors_New "c")] stub.init
  = Ret [errors_New "a"; errors_New "b"; errors_New "c"] (assign 1 4%Z stub.init).
Proof.
  refine (proj1 (ValidateWithErrs_collects (V := Z) (value := tt)
            (outs := [errors_New "a"; errors_New "b"; nil_error; errors_New "c"]) _)).
  eapply calls_cons; [reflexivity |].
  eapply calls_cons; [reflexivity |].
  eapply calls_cons; [reflexivity |].
  eapply calls_cons; [reflexivity |].
  apply calls_nil.
Defined.

(** ** Dependency and mutual exclusion *)

(** C6. [Dependency(field, dependency, childRule, extractor).Validate(R)]
    returns what [childRule.Validate(extractor(R))] returns, the child's
    error unchanged; with a nil [childRule] it returns nil and does not
    call the extractor (the state is untouched and nothing panics, even
    for a nil or panicking extractor). *)
Theorem Dependency_delegates {V T D} (field dependency : string)
    (childRule : rule.Rule V D) (R : T) :
  (forall (extractor : T -> D),
      rule.DependencyRule.Validate
        (rule.Dependency field dependency (Some childRule)
           (Some (fun value => ret (extractor value)))) R
      = childRule (extractor R)) /\
  (forall (getter : T -> M V D) s d s1 out s2,
      getter R s = Ret d s1 -> childRule d s1 = Ret out s2 ->
      rule.DependencyRule.Validate
        (rule.Dependency field dependency (Some childRule) (Some getter)) R s
      = Ret out s2) /\
  (forall (getter : option (T -> M V D)) (s : State V),
      rule.DependencyRule.Validate
        (rule.Dependency (D := D) field dependency None getter) R s
      = Ret nil_error s).
Proof.
  split; [| split].
  - intros extractor. reflexivity.
  - intros getter s d s1 out s2 Hget Hchild.
    cbn. unfold bind. now rewrite Hget.
  - intros getter s. reflexivity.
Qed.

(** A child that rejects names other than "John", on a record whose
    name is "Jane": the child's own error comes back. *)
Lemma Dependency_delegates_witness :
  rule.DependencyRule.Validate
    (rule.Dependency "Name" ""
       (Some (fun name : string =>
                ret (if String.eqb name "John" then nil_error
                     else errors_New "invalid name")))
       (Some (fun user : string * Z => ret (fst user))))
    ("Jane", 25%Z) (stub.init (V := Z))
  = Ret (errors_New "invalid name") stub.init.
Proof.
  refine (proj1 (proj2 (Dependency_delegates (V := Z) "Name" "" _ ("Jane", 25%Z)))
            _ stub.init "Jane" stub.init _ _ eq_refl eq_refl).
Defined.

(** C9. [MutualExclude(fields, values, eq).Validate(x)] returns nil if
    and only if [equal(v, x)] holds for some [v] of [values], and returns
    the rule's own error [ErrMutualExclude] otherwise; the state is not
    touched.  With values "A", "B" and string equality, "A" passes and
    "C" fails. *)
Theorem MutualExclude_membership {V T} (fields : list string) (values : list T)
    (equal : T -> T -> bool) (x : T) (s : State V) :
  (rule.MutualExcludeRule.Validate (rule.MutualExclude fields values (Some equal)) x s
     = Ret nil_error s
   <-> exists v, In v values /\ equal v x = true) /\
  (~ (exists v, In v values /\ equal v x = true) ->
   rule.MutualExcludeRule.Validate (rule.MutualExclude fields values (Some equal)) x s
     = Ret rule.ErrMutualExclude s) /\
  rule.MutualExcludeRule.Validate
    (rule.MutualExclude fields ["A"; "B"] (Some String.eqb)) "A" s = Ret nil_error s /\
  rule.MutualExcludeRule.Validate
    (rule.MutualExclude fields ["A"; "B"] (Some String.eqb)) "C" s
    = Ret rule.ErrMutualExclude s.
Proof.
  assert (Hscan : rule.MutualExcludeRule.scan equal values x = true
                  <-> exists v, In v values /\ equal v x = true).
  { induction values as [| v vs IH]; cbn.
    - split; [discriminate | intros (v & [] & _)].
    - destruct (equal v x) eqn:Hv.
      + split; [| reflexivity]. intros _. exists v. auto.
      + rewrite IH. split.
        * intros (w & Hin & Hw). exists w. auto.
        * intros (w & [-> | Hin] & Hw); [congruence |]. exists w. auto. }
  unfold rule.MutualExcludeRule.Validate, rule.MutualExclude. cbn.
  repeat split.
  - destruct (rule.MutualExcludeRule.scan equal values x) eqn:Hs; cbn.
    + intros _. now apply Hscan.
    + discriminate.
  - intros Hex. apply Hscan in Hex. now rewrite Hex.
  - intros Hnot. destruct (rule.MutualExcludeRule.scan equal values x) eqn:Hs; cbn.
    + exfalso. apply Hnot. now apply Hscan.
    + reflexivity.
Qed.

(** The roles "admin", "user", "guest": "invalid" is none of them. *)
Lemma MutualExclude_membership_witness :
  rule.MutualExcludeRule.Validate
    (rule.MutualExclude ["admin"; "user"; "guest"] ["admin"; "user"; "guest"]
       (Some String.eqb)) "invalid" (stub.init (V := Z))
  = Ret rule.ErrMutualExclude stub.init.
Proof.
  refine (proj1 (proj2 (MutualExclude_membership (V := Z) _ _ String.eqb
                          "invalid" stub.init)) _).
  intros (v & Hin & Heq). cbn in Hin.
  destruct Hin as [<- | [<- | [<- | []]]]; discriminate Heq.
Defined.

(** ** Field bindings *)

Section FieldLoop.
Context {V : Type}.
Implicit Types (rs pre post : list (rule.Rule V V)) (s : State V).

Lemma deref_slot (p : loc) s x : mem s !! p = Some x -> deref (Some p) s = Ret x s.
Proof. intros H. unfold deref. now rewrite H. Qed.

Lemma field_loop_all_pass (p : loc) rs s outs s' :
  slot_calls p rs s outs s' -> passed outs ->
  arbiter.FieldRule.loop (Some p) rs s = Ret nil_error s'.
Proof.
  induction 1 as [s | r rs s x out s1 outs s2 Hx Hr _ IH]; intros Hp.
  - reflexivity.
  - apply Forall_cons_1 in Hp as [-> Hp]. cbn [arbiter.FieldRule.loop].
    unfold bind at 1. rewrite (deref_slot _ _ Hx). run_call Hr. auto.
Qed.

Lemma field_loop_first_failure (p : loc) pre c post s outs s1 x err s2 :
  slot_calls p pre s outs s1 -> passed outs ->
  mem s1 !! p = Some x -> c x s1 = Ret err s2 -> err <> nil_error ->
  arbiter.FieldRule.loop (Some p) (pre ++ c :: post) s = Ret err s2.
Proof.
  intros Hc Hp Hx Hfail Herr.
  induction Hc as [s | r rs s y out s1 outs s3 Hy Hr _ IH].
  - cbn [app arbiter.FieldRule.loop]. unfold bind at 1.
    rewrite (deref_slot _ _ Hx). run_call Hfail. now rewrite (is_nil_false Herr).
  - apply Forall_cons_1 in Hp as [-> Hp]. cbn [app arbiter.FieldRule.loop].
    unfold bind at 1. rewrite (deref_slot _ _ Hy). run_call Hr. auto.
Qed.

Lemma field_loop_Validate (p : loc) rs s x :
  Forall (keeps_slot p) rs -> mem s !! p = Some x ->
  arbiter.FieldRule.loop (Some p) rs s = arbiter.Validate x rs s.
Proof.
  intros Hk. revert s. induction Hk as [| r rs Hr _ IH]; intros s Hx.
  - reflexivity.
  - cbn [arbiter.FieldRule.loop arbiter.Validate]. unfold bind at 1.
    rewrite (deref_slot _ _ Hx). unfold bind.
    destruct (r x s) as [err s1 |] eqn:Hcall; [| reflexivity].
    destruct (negb (is_nil err)); [reflexivity |].
    apply IH. rewrite (Hr _ _ _ _ Hcall). exact Hx.
Qed.

End FieldLoop.

(** C7. [Field(slotRef, rules...)] only records the pointer; [validate()]
    reads the slot when it runs.  Each rule is called on what the slot
    holds; if the rules before [c] return nil and [c] returns an error,
    that error is returned unchanged, in the state [c] left, and the
    rules after [c] are not called; if all rules return nil so does
    [validate()].  For rules that do not write the slot, [validate()]
    after the caller stored [x] in the slot is [Validate(x, rules...)],
    whatever the slot held when the binding was made. *)
Theorem Field_validate {V} (slotRef : loc) (rules : list (rule.Rule V V)) :
  (forall pre c post s outs s1 x err s2,
      rules = pre ++ c :: post ->
      slot_calls slotRef pre s outs s1 -> passed outs ->
      mem s1 !! slotRef = Some x -> c x s1 = Ret err s2 -> err <> nil_error ->
      arbiter.FieldRule.validate (arbiter.Field (Some slotRef) rules) s = Ret err s2) /\
  (forall s outs s',
      slot_calls slotRef rules s outs s' -> passed outs ->
      arbiter.FieldRule.validate (arbiter.Field (Some slotRef) rules) s
        = Ret nil_error s') /\
  (Forall (keeps_slot slotRef) rules ->
   forall s0 x,
     let binding := arbiter.Field (Some slotRef) rules in
     arbiter.FieldRule.validate binding (assign slotRef x s0)
       = arbiter.Validate x rules (assign slotRef x s0)).
Proof.
  split; [| split].
  - intros pre c post s outs s1 x err s2 -> Hc Hp Hx Hfail Herr.
    eapply field_loop_first_failure; eassumption.
  - intros s outs s' Hc Hp. eapply field_loop_all_pass; eassumption.
  - intros Hk s0 x binding. apply field_loop_Validate; [exact Hk |].
    cbn. apply lookup_insert_eq.
Qed.

(** A binding on an age slot holding 30 when the binding is made; the
    caller then stores -5, and validation fails on the minimum rule. *)
Lemma Field_validate_witness :
  let person := assign 1 30%Z stub.init in
  let binding := arbiter.Field (Some 1%positive)
                   [stub.at_least 0 (errors_New "too small")] in
  arbiter.FieldRule.validate binding (assign 1 (-5)%Z person)
  = Ret (errors_New "too small") (assign 1 (-5)%Z person).
Proof.
  intros person binding.
  refine (eq_trans
            (proj2 (proj2 (Field_validate (V := Z) 1%positive
                             [stub.at_least 0 (errors_New "too small")]))
               _ person (-5)%Z) eq_refl).
  repeat constructor. intros value s out s' H. now inversion H.
Defined.

(** ** ValidateStruct *)

Section NilPointer.
Context {V : Type}.
Implicit Types (s : State V) (r : NilRule).

Lemma NotNil_Validate_nil_pointer r (t : type) s :
  kind_of t = reflect.Ptr -> nil_not r = true ->
  rule.NilRule.Validate r (box t (Addr None)) s = Ret (nil_e r) s.
Proof.
  intros Hk Hnot.
  assert (Hreflect :
    match Kind (ValueOf (box t (Addr None))) with
    | reflect.Ptr | reflect.Interface | reflect.Map | reflect.Func
    | reflect.Array | reflect.Chan | reflect.Slice =>
        match IsNil (ValueOf (box t (Addr None))) with
        | Some isNil =>
            if (nil_not r && isNil) || (negb (nil_not r) && negb isNil)
            then ret (nil_e r) else ret nil_error
        | None => panic
        end
    | k => ret (fmt_Errorf "unsupported type: %v" [rule.NilRule.Kind_as_any k])
    end s = Ret (nil_e r) s).
  { cbn. rewrite Hk, Hnot. reflexivity. }
  unfold rule.NilRule.Validate.
  destruct t as [k | elem | | | | | | | | |]; try exact Hreflect.
  - cbn in Hk. subst k. exact Hreflect.
  - destruct elem as [k | | | | | | | | | |]; try exact Hreflect.
    destruct (rule.NilRule.pointer_case k); [| exact Hreflect].
    cbn. rewrite Hnot. reflexivity.
Qed.

Lemma Errf_keeps_not r format args :
  nil_not (rule.NilRule.Errf r format args) = nil_not r.
Proof. unfold rule.NilRule.Errf. now destruct (decide (format = "")). Qed.

Lemma Errf_NotNil_ok s format args :
  NotNil_ok s ->
  NotNil_ok {| rule_NotNil := rule.NilRule.Errf (rule_NotNil s) format args;
               mem := mem s |}.
Proof.
  intros [Hnot He]. split; cbn.
  - now rewrite Errf_keeps_not.
  - unfold rule.NilRule.Errf. destruct (decide (format = "")); [exact He |].
    right. now exists format, args.
Qed.

Lemma NotNil_ok_not_nil s : NotNil_ok s -> nil_e (rule_NotNil s) <> nil_error.
Proof.
  intros [_ [He | (format & args & He)]]; rewrite He; discriminate.
Qed.

Lemma not_struct_pointer_nil (t : type) :
  kind_of t = reflect.Ptr ->
  arbiter.not_struct_pointer (ValueOf (box t (Addr None))) = Some false.
Proof.
  intros Hk. unfold arbiter.not_struct_pointer. cbn. rewrite Hk.
  reflexivity.
Qed.

(** What [ValidateStruct] does with a nil pointer. *)
Lemma ValidateStruct_nil (t : type) nilErr (fields : list (arbiter.IFieldRule V)) s :
  kind_of t = reflect.Ptr -> NotNil_ok s ->
  let s' := {| rule_NotNil := rule.NilRule.Errf (rule_NotNil s) nilErr [];
               mem := mem s |} in
  arbiter.ValidateStruct (box t (Addr None)) nilErr fields s
    = Ret (nil_e (rule_NotNil s')) s'.
Proof.
  intros Hk Hok s'. unfold arbiter.ValidateStruct.
  rewrite (not_struct_pointer_nil _ Hk). cbn [or_panic].
  unfold bind at 1. unfold ret at 1. unfold bind at 1.
  unfold rule.NotNil_Errf at 1. fold s'.
  cbn [arbiter.Validate]. unfold bind at 1. unfold bind at 1.
  unfold rule.NotNil at 1.
  assert (Hok' : NotNil_ok s') by now apply Errf_NotNil_ok.
  rewrite (NotNil_Validate_nil_pointer _ _ s' Hk (proj1 Hok')).
  rewrite (is_nil_false (NotNil_ok_not_nil Hok')). cbn [negb]. unfold ret at 1.
  rewrite (is_nil_false (NotNil_ok_not_nil Hok')). reflexivity.
Qed.

Lemma init_ok : NotNil_ok (stub.init (V := V)).
Proof. split; [reflexivity | now left]. Qed.

End NilPointer.

Lemma pointee_kind (t elem : type) : pointee t = Some elem -> kind_of t = reflect.Ptr.
Proof. induction t; cbn; try discriminate; auto. Qed.

Lemma ValidateStruct_not_struct {V} (t elem : type) (d : data) nilErr
    (fields : list (arbiter.IFieldRule V)) (s : State V) :
  pointee t = Some elem -> nil_data d = false -> kind_of elem <> reflect.Struct ->
  arbiter.ValidateStruct (box t d) nilErr fields s
    = Ret (errors_New "value must be a pointer") s.
Proof.
  intros Hp Hd Hk. unfold arbiter.ValidateStruct, arbiter.not_struct_pointer.
  cbn. rewrite (pointee_kind _ Hp), Hp, Hd. cbn.
  rewrite (bool_decide_eq_true_2 _ Hk). reflexivity.
Qed.

(** C1 (as amended).  For a nil pointer to any record type, any
    nilMessage and any field bindings, [ValidateStruct] returns a non-nil
    failure and leaves the caller's memory as it was, whatever the field
    bindings are: none of them is invoked.  For a non-empty nilMessage
    the failure is [fmt.Errorf(nilMessage)], whose text is nilMessage
    when it contains no ['%'].  An empty nilMessage is not installed:
    the failure is then the error the [NotNil] rule holds. *)
Theorem ValidateStruct_nil_guard {V} (record : type) (nilMessage : string)
    (fields : list (arbiter.IFieldRule V)) (s : State V) :
  NotNil_ok s ->
  exists failure s',
    arbiter.ValidateStruct (stub.nil_pointer record) nilMessage fields s
      = Ret failure s' /\
    mem s' = mem s /\
    failure <> nil_error /\
    (nilMessage <> "" ->
       failure = fmt_Errorf nilMessage [] /\
       (has_verb nilMessage = false -> Error failure = Some nilMessage)) /\
    (nilMessage = "" -> failure = nil_e (rule_NotNil s)).
Proof.
  intros Hok.
  pose proof (ValidateStruct_nil (PointerTo record) nilMessage fields eq_refl Hok) as Hrun.
  cbv zeta in Hrun. eexists _, _. split; [exact Hrun |].
  split; [reflexivity |]. split.
  - exact (NotNil_ok_not_nil (Errf_NotNil_ok nilMessage [] Hok)).
  - cbn. unfold rule.NilRule.Errf. split.
    + intros Hne. destruct (decide (nilMessage = "")); [contradiction |].
      cbn. split; [reflexivity |]. now intros ->.
    + intros ->. reflexivity.
Qed.

(** A nil [*Person], the message of the tests, and a field binding that
    would count its call: the message comes back, the counter cell is
    not written. *)
Lemma ValidateStruct_nil_guard_witness :
  exists failure s',
    arbiter.ValidateStruct (stub.nil_pointer stub.Person) "User cannot be nil"
      [stub.counting_field 1 nil_error] stub.init = Ret failure s' /\
    mem s' = mem (stub.init (V := Z)) /\
    failure <> nil_error /\
    ("User cannot be nil" <> "" ->
       failure = fmt_Errorf "User cannot be nil" [] /\
       (has_verb "User cannot be nil" = false ->
        Error failure = Some "User cannot be nil")) /\
    ("User cannot be nil" = "" -> failure = nil_e (rule_NotNil (stub.init (V := Z)))).
Proof.
  apply (ValidateStruct_nil_guard (V := Z) stub.Person "User cannot be nil"
           [stub.counting_field 1 nil_error] (s := stub.init)).
  split; [reflexivity | left; reflexivity].
Defined.

(** C1 as stated fails for the empty nilMessage: in a fresh process the
    failure is [ErrNotNil], "must not be nil", and not the empty message. *)
Lemma ValidateStruct_nil_empty_message :
  arbiter.ValidateStruct (stub.nil_pointer stub.Person) "" [] (stub.init (V := Z))
    = Ret rule.ErrNotNil stub.init /\
  ~ (exists failure s',
       arbiter.ValidateStruct (stub.nil_pointer stub.Person) "" [] (stub.init (V := Z))
         = Ret failure s' /\
       (failure = fmt_Errorf "" [] \/ Error failure = Some "")).
Proof.
  split; [reflexivity |].
  intros (failure & s' & Hrun & Hmsg).
  change (Ret rule.ErrNotNil (stub.init (V := Z)) = Ret failure s') in Hrun.
  injection Hrun as <- <-. destruct Hmsg as [H | H]; discriminate H.
Qed.

(** C10.  A nil pointer of any pointer type, a nil [*int] included, is
    not rejected by the shape check: [ValidateStruct] returns the error
    the [NotNil] rule holds after [Errf(nilErr)], which is not the error
    "value must be a pointer".  A non-nil pointer to something that is
    not a struct gets that error. *)
Theorem ValidateStruct_nil_any_pointer {V} (t : type) (nilErr : string)
    (fields : list (arbiter.IFieldRule V)) (s : State V) :
  kind_of t = reflect.Ptr -> NotNil_ok s ->
  (exists failure s',
      arbiter.ValidateStruct (box t (Addr None)) nilErr fields s = Ret failure s' /\
      failure = nil_e (rule_NotNil s') /\
      rule_NotNil s' = rule.NilRule.Errf (rule_NotNil s) nilErr [] /\
      failure <> nil_error /\
      failure <> errors_New "value must be a pointer") /\
  (forall elem d,
      pointee t = Some elem -> kind_of elem <> reflect.Struct ->
      nil_data d = false ->
      arbiter.ValidateStruct (box t d) nilErr fields s
        = Ret (errors_New "value must be a pointer") s).
Proof.
  intros Hk Hok. split.
  - pose proof (ValidateStruct_nil t nilErr fields Hk Hok) as Hrun.
    cbv zeta in Hrun. eexists _, _. split; [exact Hrun |].
    pose proof (Errf_NotNil_ok nilErr [] Hok) as Hok'.
    repeat split.
    + exact (NotNil_ok_not_nil Hok').
    + destruct Hok' as [_ [He | (format & args & He)]]; cbn in He |- *;
        rewrite He; discriminate.
  - intros elem d Hp Hs Hd. now apply ValidateStruct_not_struct with elem.
Qed.

(** A nil [*int] in a fresh process, with a field binding that would
    count its call, and a non-nil [*int]. *)
Lemma ValidateStruct_nil_any_pointer_witness :
  (exists s',
     arbiter.ValidateStruct (box (PointerTo (Basic reflect.Int)) (Addr None))
       "nil" [stub.counting_field 1 nil_error] stub.init
     = Ret (fmt_Errorf "nil" []) s') /\
  arbiter.ValidateStruct (box (PointerTo (Basic reflect.Int)) (Addr (Some 1%positive)))
    "nil" [stub.counting_field 1 nil_error] stub.init
  = Ret (errors_New "value must be a pointer") stub.init.
Proof.
  destruct (ValidateStruct_nil_any_pointer (V := Z)
              (PointerTo (Basic reflect.Int)) "nil"
              [stub.counting_field 1 nil_error] (s := stub.init)
              eq_refl (conj eq_refl (or_introl eq_refl)))
    as [(failure & s' & Hrun & Hfailure & Hshared & _) Hshape].
  split.
  - exists s'. rewrite Hrun, Hfailure, Hshared. reflexivity.
  - apply (Hshape (Basic reflect.Int) (Addr (Some 1%positive)) eq_refl);
      [discriminate | reflexivity].
Defined.

(** C2.  [ValidateStruct] is not independent of earlier calls: it writes
    the object the package variable [rule.NotNil] points to.  In a fresh
    process a nil [*Person] with the empty message fails with
    [ErrNotNil]; after one call with the message "Person cannot be nil"
    (on a nil or on a valid pointer) the same call fails with that
    message, and so does [rule.NotNil.Validate(nil)]. *)
Theorem ValidateStruct_overwrites_NotNil :
  let person := stub.nil_pointer stub.Person in
  let valid := box (PointerTo stub.Person) (Addr (Some 1%positive)) in
  let custom := fmt_Errorf "Person cannot be nil" [] in
  let fresh := stub.init (V := Z) in
  let later := {| rule_NotNil := {| nil_not := true; nil_e := custom |};
                  mem := mem fresh |} in
  arbiter.ValidateStruct person "" [] fresh = Ret rule.ErrNotNil fresh /\
  arbiter.ValidateStruct person "Person cannot be nil" [] fresh = Ret custom later /\
  arbiter.ValidateStruct valid "Person cannot be nil" [] fresh = Ret nil_error later /\
  arbiter.ValidateStruct person "" [] later = Ret custom later /\
  rule.NotNil untyped_nil fresh = Ret rule.ErrNotNil fresh /\
  rule.NotNil untyped_nil later = Ret custom later /\
  arbiter.Validate untyped_nil [rule.NotNil] fresh = Ret rule.ErrNotNil fresh /\
  arbiter.Validate untyped_nil [rule.NotNil] later = Ret custom later.
Proof. repeat split. Qed.

(** ** Errf *)

Section Errf.
Context {V T : Type}.

(** [Errf] with an empty format changes nothing. *)
Lemma ConditionRule_Errf_empty (r : rule.ConditionRule.t V T) args :
  rule.ConditionRule.Errf r "" args = r.
Proof. reflexivity. Qed.

(** With a non-empty format only [e] changes, and the last call wins. *)
Lemma ConditionRule_Errf_set (r : rule.ConditionRule.t V T) format args :
  format <> "" ->
  rule.ConditionRule.e (rule.ConditionRule.Errf r format args) = fmt_Errorf format args /\
  rule.ConditionRule.operator (rule.ConditionRule.Errf r format args)
    = rule.ConditionRule.operator r /\
  rule.ConditionRule.rules (rule.ConditionRule.Errf r format args)
    = rule.ConditionRule.rules r /\
  forall format0 args0,
    rule.ConditionRule.Errf (rule.ConditionRule.Errf r format0 args0) format args
    = rule.ConditionRule.Errf r format args.
Proof.
  intros Hne. unfold rule.ConditionRule.Errf.
  destruct (decide (format = "")); [contradiction |]. repeat split.
  intros format0 args0. now destruct (decide (format0 = "")).
Qed.

(** A failing [MutualExcludeRule] returns the error set by [Errf]. *)
Lemma MutualExclude_Errf_returned fields (values : list T) equal format args x
    (s : State V) :
  format <> "" -> rule.MutualExcludeRule.scan equal values x = false ->
  rule.MutualExcludeRule.Validate
    (rule.MutualExcludeRule.Errf (rule.MutualExclude fields values (Some equal))
       format args) x s
  = Ret (fmt_Errorf format args) s.
Proof.
  intros Hne Hscan. unfold rule.MutualExcludeRule.Errf.
  destruct (decide (format = "")); [contradiction |].
  unfold rule.MutualExcludeRule.Validate. cbn. now rewrite Hscan.
Qed.

End Errf.

(** C8.  The run of the repository's test "Dependency rule custom
    error": a dependency rule whose child fails with "validation error",
    overridden by [Errf("Custom dependency error")].  The override is
    stored in [e], yet [Validate] returns the child's error: for this
    rule a failure does not carry the custom message. *)
Theorem Dependency_Errf_not_returned {V} (s : State V) :
  let child : rule.Rule V string := stub.always (errors_New "validation error") in
  let getName : stub.User -> M V string := fun u => ret (stub.Name u) in
  let r := rule.DependencyRule.Errf
             (rule.Dependency "Name" "" (Some child) (Some getName))
             "Custom dependency error" [] in
  rule.DependencyRule.e r = fmt_Errorf "Custom dependency error" [] /\
  rule.DependencyRule.Validate r (stub.mkUser "test") s
    = Ret (errors_New "validation error") s /\
  Error (errors_New "validation error") <> Some "Custom dependency error".
Proof. repeat split. discriminate. Qed.

(** ** Further properties of the orchestration *)

Section MoreLoops.
Context {V T : Type}.
Implicit Types (value : T) (rs : list (rule.Rule V T)) (s : State V).

Lemma collect_inv value rs errs s out s' :
  arbiter.collect value rs errs s = Ret out s' ->
  exists outs, calls value rs s outs s' /\ out = errs ++ failures outs.
Proof.
  revert errs s. induction rs as [| r rs IH]; intros errs s Hrun.
  - cbn in Hrun. injection Hrun as <- <-. exists []. split; [constructor |].
    now rewrite app_nil_r.
  - cbn [arbiter.collect] in Hrun. unfold bind in Hrun.
    destruct (r value s) as [err s1 |] eqn:Hr; [| discriminate].
    destruct err as [| text | format a]; cbn [is_nil negb] in Hrun;
      apply IH in Hrun as (outs & Hc & ->); eexists (_ :: outs);
      (split; [eapply calls_cons; eassumption |]).
    + reflexivity.
    + cbn. now rewrite <- app_assoc.
    + cbn. now rewrite <- app_assoc.
Qed.

Lemma Validate_of_calls value rs s outs s' :
  calls value rs s outs s' ->
  exists s1, arbiter.Validate value rs s = Ret (hd nil_error (failures outs)) s1.
Proof.
  induction 1 as [s | r rs s out s1 outs s2 Hr _ IH].
  - now exists s.
  - cbn [arbiter.Validate]. run_call Hr.
    destruct out as [| text | format a]; cbn [is_nil negb].
    + exact IH.
    + now exists s1.
    + now exists s1.
Qed.

Lemma failures_not_nil (outs : list error) :
  Forall (fun err => err <> nil_error) (failures outs).
Proof.
  induction outs as [| out outs IH]; [constructor |].
  destruct out; cbn; [exact IH | |]; constructor; (discriminate || exact IH).
Qed.

Lemma failures_length (outs : list error) : length (failures outs) <= length outs.
Proof.
  induction outs as [| out outs IH]; [reflexivity |].
  destruct out as [| text | format a].
  - rewrite failures_cons_nil. cbn [length]. lia.
  - rewrite failures_cons_err by discriminate. cbn [length]. lia.
  - rewrite failures_cons_err by discriminate. cbn [length]. lia.
Qed.

Lemma and_loop_Validate (own : error) value rs s :
  rule.ConditionRule.and_loop own rs value s
  = match arbiter.Validate value rs s with
    | Ret err s' => Ret (if is_nil err then nil_error else own) s'
    | Panic => Panic
    end.
Proof.
  revert s. induction rs as [| r rs IH]; intros s; [reflexivity |].
  cbn [rule.ConditionRule.and_loop arbiter.Validate]. unfold bind.
  destruct (r value s) as [err s1 |]; [| reflexivity].
  destruct err; cbn [is_nil negb]; [apply IH | reflexivity | reflexivity].
Qed.

Lemma and_loop_app (own : error) value rs1 rs2 s :
  own <> nil_error ->
  rule.ConditionRule.and_loop own (rs1 ++ rs2) value s
  = match rule.ConditionRule.and_loop own rs1 value s with
    | Ret err s' =>
        if negb (is_nil err) then Ret own s'
        else rule.ConditionRule.and_loop own rs2 value s'
    | Panic => Panic
    end.
Proof.
  intros Hown. revert s. induction rs1 as [| r rs1 IH]; intros s; [reflexivity |].
  cbn [app rule.ConditionRule.and_loop]. unfold bind.
  destruct (r value s) as [err s1 |]; [| reflexivity].
  destruct (negb (is_nil err)); [| apply IH].
  unfold ret. now rewrite (is_nil_false Hown).
Qed.

Lemma or_loop_app (own : error) value rs1 rs2 s :
  own <> nil_error ->
  rule.ConditionRule.or_loop own (rs1 ++ rs2) value s
  = match rule.ConditionRule.or_loop own rs1 value s with
    | Ret err s' =>
        if is_nil err then Ret nil_error s'
        else rule.ConditionRule.or_loop own rs2 value s'
    | Panic => Panic
    end.
Proof.
  intros Hown. revert s. induction rs1 as [| r rs1 IH]; intros s.
  - cbn. unfold ret. now rewrite (is_nil_false Hown).
  - cbn [app rule.ConditionRule.or_loop]. unfold bind.
    destruct (r value s) as [err s1 |]; [| reflexivity].
    destruct (is_nil err); [reflexivity | apply IH].
Qed.

End MoreLoops.

(** X1. [Validate(value, rules...)] calls the rules in order and returns
    the first non-nil error as the rule returned it, in the state that
    rule left; the rules after it are not called.  If every rule returns
    nil (also when there is none) it returns nil. *)
Theorem Validate_short_circuit {V T} (value : T) (rules : list (rule.Rule V T)) :
  (forall pre c post s outs s1 err s2,
      rules = pre ++ c :: post ->
      calls value pre s outs s1 -> passed outs ->
      c value s1 = Ret err s2 -> err <> nil_error ->
      arbiter.Validate value rules s = Ret err s2) /\
  (forall s outs s',
      calls value rules s outs s' -> passed outs ->
      arbiter.Validate value rules s = Ret nil_error s').
Proof.
  split.
  - intros pre c post s outs s1 err s2 -> Hc Hp Hfail Herr.
    eapply Validate_first_failure; eassumption.
  - intros s outs s' Hc Hp. eapply Validate_all_pass; eassumption.
Qed.

(** Rules [pass, fail, fail] that count their calls: the second rule's
    error comes back and the counter stands at 2. *)
Lemma Validate_short_circuit_witness :
  arbiter.Validate tt
    [stub.counting 1 nil_error; stub.counting 1 (errors_New "second");
     stub.counting 1 (errors_New "third")] stub.init
  = Ret (errors_New "second") (assign 1 2%Z stub.init).
Proof.
  refine (proj1 (Validate_short_circuit (V := Z) tt _)
            [stub.counting 1 nil_error] (stub.counting 1 (errors_New "second"))
            [stub.counting 1 (errors_New "third")] stub.init [nil_error]
            (assign 1 1%Z stub.init) (errors_New "second") _
            eq_refl _ _ _ _).
  - eapply calls_cons; [reflexivity | apply calls_nil].
  - repeat constructor.
  - reflexivity.
  - discriminate.
Defined.

(** X2. Whenever [ValidateWithErrs] returns, [Validate] on the same
    arguments returns too, and its result is the first entry of the list
    [ValidateWithErrs] returned, or nil if that list is empty. *)
Theorem Validate_first_of_ValidateWithErrs {V T} (value : T)
    (rules : list (rule.Rule V T)) (s : State V) (errs : list error) (s' : State V) :
  arbiter.ValidateWithErrs value rules s = Ret errs s' ->
  exists s1, arbiter.Validate value rules s = Ret (hd nil_error errs) s1.
Proof.
  intros Hrun. apply collect_inv in Hrun as (outs & Hc & ->).
  exact (Validate_of_calls Hc).
Qed.

Lemma Validate_first_of_ValidateWithErrs_witness :
  exists s1,
    arbiter.Validate 5%Z
      [stub.at_least 10 (errors_New "a"); stub.at_least 0 (errors_New "b");
       stub.at_least 7 (errors_New "c")] (stub.init (V := Z))
    = Ret (hd nil_error [errors_New "a"; errors_New "c"]) s1.
Proof.
  apply (Validate_first_of_ValidateWithErrs (V := Z) 5%Z
           [stub.at_least 10 (errors_New "a"); stub.at_least 0 (errors_New "b");
            stub.at_least 7 (errors_New "c")] stub.init (s' := stub.init)).
  reflexivity.
Defined.

(** X3. The list [ValidateWithErrs] returns has no nil entry and is not
    longer than the list of rules. *)
Theorem ValidateWithErrs_no_nil {V T} (value : T)
    (rules : list (rule.Rule V T)) (s : State V) (errs : list error) (s' : State V) :
  arbiter.ValidateWithErrs value rules s = Ret errs s' ->
  Forall (fun err => err <> nil_error) errs /\ length errs <= length rules.
Proof.
  intros Hrun. apply collect_inv in Hrun as (outs & Hc & ->). cbn. split.
  - apply failures_not_nil.
  - rewrite <- (calls_length Hc). apply failures_length.
Qed.

Lemma ValidateWithErrs_no_nil_witness :
  Forall (fun err => err <> nil_error) [errors_New "a"; errors_New "c"] /\
  length [errors_New "a"; errors_New "c"] <= 3.
Proof.
  apply (ValidateWithErrs_no_nil (V := Z) 5%Z
           [stub.at_least 10 (errors_New "a"); stub.at_least 0 (errors_New "b");
            stub.at_least 7 (errors_New "c")] stub.init (s' := stub.init)).
  reflexivity.
Defined.

(** X4. [And(rules...).Validate(value)] does what [Validate(value,
    rules...)] does (same calls, same final state, same panics), with any
    error replaced by [ErrCondition]. *)
Theorem And_is_Validate {V T} (value : T) (rules : list (rule.Rule V T)) (s : State V) :
  rule.ConditionRule.Validate (rule.And rules) value s
  = match arbiter.Validate value rules s with
    | Ret err s' => Ret (if is_nil err then nil_error else rule.ErrCondition) s'
    | Panic => Panic
    end.
Proof. exact (and_loop_Validate rule.ErrCondition value rules s). Qed.

(** X5. Nested conjunctions flatten: an [And] of [And] rules validates
    as the [And] of all their children in order. *)
Theorem And_flatten {V T} (groups : list (list (rule.Rule V T))) (value : T) (s : State V) :
  rule.ConditionRule.Validate
    (rule.And (map (fun g => rule.ConditionRule.Validate (rule.And g)) groups)) value s
  = rule.ConditionRule.Validate (rule.And (concat groups)) value s.
Proof.
  change (rule.ConditionRule.and_loop rule.ErrCondition
            (map (fun g => rule.ConditionRule.and_loop rule.ErrCondition g) groups)
            value s
          = rule.ConditionRule.and_loop rule.ErrCondition (concat groups) value s).
  revert s. induction groups as [| g groups IH]; intros s; [reflexivity |].
  cbn [map concat rule.ConditionRule.and_loop].
  rewrite and_loop_app by discriminate. unfold bind.
  destruct (rule.ConditionRule.and_loop rule.ErrCondition g value s) as [err s1 |];
    [| reflexivity].
  destruct (negb (is_nil err)); [reflexivity | apply IH].
Qed.

(** X6. Nested disjunctions flatten: an [Or] of [Or] rules validates as
    the [Or] of all their children in order. *)
Theorem Or_flatten {V T} (groups : list (list (rule.Rule V T))) (value : T) (s : State V) :
  rule.ConditionRule.Validate
    (rule.Or (map (fun g => rule.ConditionRule.Validate (rule.Or g)) groups)) value s
  = rule.ConditionRule.Validate (rule.Or (concat groups)) value s.
Proof.
  change (rule.ConditionRule.or_loop rule.ErrCondition
            (map (fun g => rule.ConditionRule.or_loop rule.ErrCondition g) groups)
            value s
          = rule.ConditionRule.or_loop rule.ErrCondition (concat groups) value s).
  revert s. induction groups as [| g groups IH]; intros s; [reflexivity |].
  cbn [map concat rule.ConditionRule.or_loop].
  rewrite or_loop_app by discriminate. unfold bind.
  destruct (rule.ConditionRule.or_loop rule.ErrCondition g value s) as [err s1 |];
    [| reflexivity].
  destruct (is_nil err); [reflexivity | apply IH].
Qed.

(** ** Further properties of the nil rules and of ValidateStruct *)

Section NilRuleCases.
Context {V : Type}.
Implicit Types (r : NilRule) (t : type) (d : data) (s : State V).

Lemma finish_verdict r (isNil : bool) s :
  (if (nil_not r && isNil) || (negb (nil_not r) && negb isNil)
   then ret (nil_e r) else ret nil_error) s = Ret (verdict r isNil) s.
Proof. unfold verdict. now destruct (nil_not r), isNil. Qed.

Lemma NilRule_Validate_nilable r t d s :
  nilable (kind_of t) = true ->
  rule.NilRule.Validate r (box t d) s = Ret (verdict r (nil_data d)) s.
Proof.
  intros Hk.
  assert (Hreflect :
    match Kind (ValueOf (box t d)) with
    | reflect.Ptr | reflect.Interface | reflect.Map | reflect.Func
    | reflect.Array | reflect.Chan | reflect.Slice =>
        match IsNil (ValueOf (box t d)) with
        | Some isNil =>
            if (nil_not r && isNil) || (negb (nil_not r) && negb isNil)
            then ret (nil_e r) else ret nil_error
        | None => panic
        end
    | k => ret (fmt_Errorf "unsupported type: %v" [rule.NilRule.Kind_as_any k])
    end s = Ret (verdict r (nil_data d)) s).
  { cbn. destruct (kind_of t); try discriminate Hk; apply finish_verdict. }
  unfold rule.NilRule.Validate.
  destruct t as [k | elem | | | | | | | | |]; try exact Hreflect.
  - destruct k; try discriminate Hk; exact Hreflect.
  - destruct elem as [k | | | | | | | | | |]; try exact Hreflect.
    destruct (rule.NilRule.pointer_case k); [| exact Hreflect].
    apply finish_verdict.
Qed.

Lemma NilRule_Validate_value_case r (k : reflect.Kind) d s :
  rule.NilRule.value_case k = true ->
  rule.NilRule.Validate r (box (Basic k) d) s = Ret (verdict r false) s.
Proof.
  intros Hk. unfold rule.NilRule.Validate. rewrite Hk. apply finish_verdict.
Qed.

(** X12. A value whose type has no case in the type switch and whose
    kind is not one of pointer, interface, map, func, array, chan, slice
    (a [float64], a struct, a complex number, a named integer type) gets
    the error "unsupported type" from every [NilRule], whatever its
    [not] flag and whatever error [Errf] installed. *)
Theorem NilRule_Validate_unsupported r t d s :
  switch_case t = false ->
  nilable (kind_of t) = false ->
  kind_of t <> reflect.Interface -> kind_of t <> reflect.Array ->
  rule.NilRule.Validate r (box t d) s
  = Ret (fmt_Errorf "unsupported type: %v" [rule.NilRule.Kind_as_any (kind_of t)]) s.
Proof.
  intros Hsw Hk Hi Ha.
  assert (Hreflect :
    match Kind (ValueOf (box t d)) with
    | reflect.Ptr | reflect.Interface | reflect.Map | reflect.Func
    | reflect.Array | reflect.Chan | reflect.Slice =>
        match IsNil (ValueOf (box t d)) with
        | Some isNil =>
            if (nil_not r && isNil) || (negb (nil_not r) && negb isNil)
            then ret (nil_e r) else ret nil_error
        | None => panic
        end
    | k => ret (fmt_Errorf "unsupported type: %v" [rule.NilRule.Kind_as_any k])
    end s
    = Ret (fmt_Errorf "unsupported type: %v" [rule.NilRule.Kind_as_any (kind_of t)]) s).
  { cbn. destruct (kind_of t); try discriminate Hk; try reflexivity; congruence. }
  unfold rule.NilRule.Validate.
  destruct t as [k | elem | | | | | | | | |]; try exact Hreflect.
  - cbn in Hsw. rewrite Hsw. exact Hreflect.
  - discriminate Hk.
Qed.

(** X13. On an array value [NilRule.Validate] panics: it asks
    [reflect.Value.IsNil], which panics for the kind array. *)
Theorem NilRule_Validate_array r t d s :
  switch_case t = false -> kind_of t = reflect.Array ->
  rule.NilRule.Validate r (box t d) s = Panic.
Proof.
  intros Hsw Hk.
  assert (Hreflect :
    match Kind (ValueOf (box t d)) with
    | reflect.Ptr | reflect.Interface | reflect.Map | reflect.Func
    | reflect.Array | reflect.Chan | reflect.Slice =>
        match IsNil (ValueOf (box t d)) with
        | Some isNil =>
            if (nil_not r && isNil) || (negb (nil_not r) && negb isNil)
            then ret (nil_e r) else ret nil_error
        | None => panic
        end
    | k => ret (fmt_Errorf "unsupported type: %v" [rule.NilRule.Kind_as_any k])
    end s = Panic).
  { cbn. rewrite Hk. reflexivity. }
  unfold rule.NilRule.Validate.
  destruct t as [k | elem | | | | | | | | |]; try exact Hreflect.
  - cbn in Hsw. rewrite Hsw. exact Hreflect.
  - discriminate Hk.
Qed.

End NilRuleCases.

Section StructPointer.
Context {V : Type}.
Implicit Types (s : State V) (fields : list (arbiter.IFieldRule V)).

Lemma validate_fields_all_pass fields s outs s' :
  field_calls fields s outs s' -> passed outs ->
  arbiter.validate_fields fields s = Ret nil_error s'.
Proof.
  induction 1 as [s | f fs s out s1 outs s2 Hf _ IH]; intros Hp.
  - reflexivity.
  - apply Forall_cons_1 in Hp as [-> Hp]. cbn. run_call Hf. auto.
Qed.

Lemma validate_fields_first_failure pre f post s outs s1 err s2 :
  field_calls pre s outs s1 -> passed outs ->
  f s1 = Ret err s2 -> err <> nil_error ->
  arbiter.validate_fields (pre ++ f :: post) s = Ret err s2.
Proof.
  intros Hc Hp Hfail Herr. induction Hc as [s | g fs s out s1 outs s3 Hg _ IH].
  - cbn. run_call Hfail. now rewrite (is_nil_false Herr).
  - apply Forall_cons_1 in Hp as [-> Hp]. cbn. run_call Hg. auto.
Qed.

(** What [ValidateStruct] does with a non-nil pointer to a struct. *)
Lemma ValidateStruct_struct_pointer (t elem : type) (d : data) nilErr fields s :
  pointee t = Some elem -> kind_of elem = reflect.Struct ->
  nil_data d = false -> NotNil_ok s ->
  arbiter.ValidateStruct (box t d) nilErr fields s
  = arbiter.validate_fields fields (with_message nilErr s).
Proof.
  intros Hp Hs Hd Hok.
  pose proof (pointee_kind _ Hp) as Hk.
  unfold arbiter.ValidateStruct.
  assert (Hshape : arbiter.not_struct_pointer (ValueOf (box t d)) = Some false).
  { unfold arbiter.not_struct_pointer. cbn. rewrite Hk, Hp, Hd. cbn.
    rewrite Hs. reflexivity. }
  rewrite Hshape. cbn [or_panic].
  unfold bind at 1. unfold ret at 1. unfold bind at 1.
  unfold rule.NotNil_Errf at 1. fold (with_message nilErr s).
  cbn [arbiter.Validate]. unfold bind at 1. unfold bind at 1.
  unfold rule.NotNil at 1.
  rewrite NilRule_Validate_nilable by (rewrite Hk; reflexivity).
  unfold verdict. rewrite Hd.
  destruct (Errf_NotNil_ok nilErr [] Hok) as [Hnot _].
  unfold with_message at 1 2. cbn [rule_NotNil]. cbn [rule_NotNil] in Hnot.
  rewrite Hnot. reflexivity.
Qed.

End StructPointer.

(** X7. A value that is not a pointer (a struct passed by value, an
    integer, the nil interface) is rejected with "value must be a
    pointer": the nil message is not used, the shared [NotNil] rule is
    not written and no field binding is invoked. *)
Theorem ValidateStruct_not_pointer {V} (value : any) (nilErr : string)
    (fields : list (arbiter.IFieldRule V)) (s : State V) :
  Kind (ValueOf value) <> reflect.Ptr ->
  arbiter.ValidateStruct value nilErr fields s
  = Ret (errors_New "value must be a pointer") s.
Proof.
  intros Hk. unfold arbiter.ValidateStruct, arbiter.not_struct_pointer.
  rewrite (bool_decide_eq_true_2 _ Hk). reflexivity.
Qed.

(** The nil interface, with a field binding that would count its call. *)
Lemma ValidateStruct_not_pointer_witness :
  arbiter.ValidateStruct untyped_nil "Person cannot be nil"
    [stub.counting_field 1 nil_error] stub.init
  = Ret (errors_New "value must be a pointer") stub.init.
Proof.
  apply (ValidateStruct_not_pointer (V := Z)). discriminate.
Defined.

(** X8. For a non-nil pointer to a struct, [ValidateStruct] first
    installs the nil message in the shared [NotNil] rule and then
    invokes the field bindings in order: it returns the first non-nil
    error, in the state that binding left, without invoking the later
    bindings; if every binding returns nil it returns nil. *)
Theorem ValidateStruct_fields_in_order {V} (t elem : type) (d : data)
    (nilErr : string) (fields : list (arbiter.IFieldRule V)) (s : State V) :
  pointee t = Some elem -> kind_of elem = reflect.Struct ->
  nil_data d = false -> NotNil_ok s ->
  (forall pre f post outs s1 err s2,
      fields = pre ++ f :: post ->
      field_calls pre (with_message nilErr s) outs s1 -> passed outs ->
      f s1 = Ret err s2 -> err <> nil_error ->
      arbiter.ValidateStruct (box t d) nilErr fields s = Ret err s2) /\
  (forall outs s',
      field_calls fields (with_message nilErr s) outs s' -> passed outs ->
      arbiter.ValidateStruct (box t d) nilErr fields s = Ret nil_error s').
Proof.
  intros Hp Hs Hd Hok. split.
  - intros pre f post outs s1 err s2 -> Hc Hpass Hfail Herr.
    rewrite (ValidateStruct_struct_pointer _ _ nilErr _ Hp Hs Hd Hok).
    eapply validate_fields_first_failure; eassumption.
  - intros outs s' Hc Hpass.
    rewrite (ValidateStruct_struct_pointer _ _ nilErr _ Hp Hs Hd Hok).
    eapply validate_fields_all_pass; eassumption.
Qed.

(** Field bindings [pass, fail, pass] that count their calls, on a valid
    [*Person]: the second binding's error comes back, the counter stands
    at 2. *)
Lemma ValidateStruct_fields_in_order_witness :
  arbiter.ValidateStruct (box (PointerTo stub.Person) (Addr (Some 7%positive))) "nil"
    [stub.counting_field 1 nil_error; stub.counting_field 1 (errors_New "age");
     stub.counting_field 1 nil_error] stub.init
  = Ret (errors_New "age") (assign 1 2%Z (with_message "nil" stub.init)).
Proof.
  refine (proj1 (ValidateStruct_fields_in_order (V := Z) (PointerTo stub.Person)
                   (Addr (Some 7%positive)) "nil" _ (s := stub.init)
                   eq_refl eq_refl eq_refl (conj eq_refl (or_introl eq_refl)))
            [stub.counting_field 1 nil_error]
            (stub.counting_field 1 (errors_New "age"))
            [stub.counting_field 1 nil_error] [nil_error]
            (assign 1 1%Z (with_message "nil" stub.init)) (errors_New "age") _
            eq_refl _ _ _ _).
  - eapply field_calls_cons; [reflexivity | apply field_calls_nil].
  - repeat constructor.
  - reflexivity.
  - discriminate.
Defined.

(** X9. The end-to-end use of the documentation: a valid record pointer
    and one binding [Field(&person.Age, Min(lo), Max(hi))].  The result
    is [ErrMin] if the age is below [lo], else [ErrMax] if it is above
    [hi], else nil; the caller's memory is not changed. *)
Theorem ValidateStruct_age_range (record : type) (person : loc) (age_slot : loc)
    (lo hi age : Z) (nilErr : string) (s : State Z) :
  kind_of record = reflect.Struct -> NotNil_ok s -> mem s !! age_slot = Some age ->
  arbiter.ValidateStruct (box (PointerTo record) (Addr (Some person))) nilErr
    [arbiter.FieldRule.validate
       (arbiter.Field (Some age_slot)
          [rule.MinRule.Validate (rule.Min lo); rule.MaxRule.Validate (rule.Max hi)])] s
  = Ret (if (age <? lo)%Z then rule.ErrMin
         else if (age >? hi)%Z then rule.ErrMax else nil_error)
      (with_message nilErr s).
Proof.
  intros Hs Hok Hage.
  rewrite (ValidateStruct_struct_pointer (PointerTo record) (Addr (Some person))
             nilErr _ eq_refl Hs eq_refl Hok).
  cbn [arbiter.validate_fields]. unfold bind at 1.
  unfold arbiter.FieldRule.validate, arbiter.Field.
  cbn [arbiter.FieldRule.field arbiter.FieldRule.rules arbiter.FieldRule.loop].
  assert (Hslot : mem (with_message nilErr s) !! age_slot = Some age) by exact Hage.
  unfold bind at 1. rewrite (deref_slot _ _ Hslot).
  unfold bind at 1. unfold rule.MinRule.Validate at 1. cbn [rule.Min rule.MinRule.min rule.MinRule.e].
  destruct (age <? lo)%Z; [reflexivity |].
  cbn [ret is_nil negb]. unfold bind at 1. rewrite (deref_slot _ _ Hslot).
  unfold bind at 1. unfold rule.MaxRule.Validate at 1.
  cbn [rule.Max rule.MaxRule.max rule.MaxRule.e].
  destruct (age >? hi)%Z; reflexivity.
Qed.

(** Ages -5, 150 and 30 against the range 0..120. *)
Lemma ValidateStruct_age_range_witness :
  let person age := assign 2 age (stub.init (V := Z)) in
  let check age :=
    arbiter.ValidateStruct (box (PointerTo stub.Person) (Addr (Some 1%positive))) "nil"
      [arbiter.FieldRule.validate
         (arbiter.Field (Some 2%positive)
            [rule.MinRule.Validate (rule.Min 0); rule.MaxRule.Validate (rule.Max 120)])]
      (person age) in
  check (-5)%Z = Ret rule.ErrMin (with_message "nil" (person (-5)%Z)) /\
  check 150%Z = Ret rule.ErrMax (with_message "nil" (person 150%Z)) /\
  check 30%Z = Ret nil_error (with_message "nil" (person 30%Z)).
Proof.
  intros person check. split; [| split].
  - exact (@ValidateStruct_age_range stub.Person 1%positive 2%positive 0%Z 120%Z
             (-5)%Z "nil" (person (-5)%Z) eq_refl (conj eq_refl (or_introl eq_refl)) eq_refl).
  - exact (@ValidateStruct_age_range stub.Person 1%positive 2%positive 0%Z 120%Z
             150%Z "nil" (person 150%Z) eq_refl (conj eq_refl (or_introl eq_refl)) eq_refl).
  - exact (@ValidateStruct_age_range stub.Person 1%positive 2%positive 0%Z 120%Z
             30%Z "nil" (person 30%Z) eq_refl (conj eq_refl (or_introl eq_refl)) eq_refl).
Defined.

(** A [float64] under [NotNil] with a custom message. *)
Lemma NilRule_Validate_unsupported_witness :
  rule.NilRule.Validate (rule.NilRule.Errf rule.NotNil_init "required" [])
    (box (Basic reflect.Float64) Opaque) (stub.init (V := Z))
  = Ret (fmt_Errorf "unsupported type: %v" [rule.NilRule.Kind_as_any reflect.Float64])
      stub.init.
Proof.
  apply (NilRule_Validate_unsupported (V := Z)); [reflexivity | reflexivity | |];
    discriminate.
Defined.

(** A [[3]int] under [NotNil]. *)
Lemma NilRule_Validate_array_witness :
  rule.NilRule.Validate rule.NotNil_init
    (box (ArrayOf 3 (Basic reflect.Int)) Opaque) (stub.init (V := Z)) = Panic.
Proof.
  apply (NilRule_Validate_array (V := Z)); reflexivity.
Defined.

(** X10. For a pointer, map, func, chan or slice value, [NotNil]
    returns nil exactly when the value is not nil and [ErrNotNil]
    otherwise; [Nil] returns nil exactly when the value is nil and
    [ErrNil] otherwise. *)
Theorem Nil_NotNil_on_references {V} (t : type) (d : data) (s : State V) :
  nilable (kind_of t) = true ->
  rule.NilRule.Validate rule.NotNil_init (box t d) s
    = Ret (if nil_data d then rule.ErrNotNil else nil_error) s /\
  rule.NilRule.Validate rule.Nil_init (box t d) s
    = Ret (if nil_data d then nil_error else rule.ErrNil) s.
Proof.
  intros Hk. rewrite !NilRule_Validate_nilable by exact Hk.
  unfold verdict. cbn. now destruct (nil_data d).
Qed.

(** A nil map and a non-nil slice. *)
Lemma Nil_NotNil_on_references_witness :
  rule.NilRule.Validate rule.NotNil_init
    (box (MapOf (Basic reflect.String) (Basic reflect.Int)) (Addr None))
    (stub.init (V := Z)) = Ret rule.ErrNotNil stub.init /\
  rule.NilRule.Validate rule.Nil_init
    (box (SliceOf (Basic reflect.Int)) (Addr (Some 3%positive)))
    (stub.init (V := Z)) = Ret rule.ErrNil stub.init.
Proof.
  split.
  - exact (proj1 (Nil_NotNil_on_references (V := Z)
                    (MapOf (Basic reflect.String) (Basic reflect.Int)) (Addr None)
                    stub.init eq_refl)).
  - exact (proj2 (Nil_NotNil_on_references (V := Z)
                    (SliceOf (Basic reflect.Int)) (Addr (Some 3%positive))
                    stub.init eq_refl)).
Defined.

(** X11. A value of type string, bool, float32 or of an integer type
    [int] ... [uint64] is never nil for the rules, its zero value
    included: [NotNil] returns nil and [Nil] returns [ErrNil]. *)
Theorem Nil_NotNil_on_values {V} (k : reflect.Kind) (d : data) (s : State V) :
  rule.NilRule.value_case k = true ->
  rule.NilRule.Validate rule.NotNil_init (box (Basic k) d) s = Ret nil_error s /\
  rule.NilRule.Validate rule.Nil_init (box (Basic k) d) s = Ret rule.ErrNil s.
Proof.
  intros Hk. rewrite !NilRule_Validate_value_case by exact Hk. split; reflexivity.
Qed.

(** The empty string. *)
Lemma Nil_NotNil_on_values_witness :
  rule.NilRule.Validate rule.NotNil_init (box (Basic reflect.String) (Str ""))
    (stub.init (V := Z)) = Ret nil_error stub.init.
Proof.
  exact (proj1 (Nil_NotNil_on_values (V := Z) reflect.String (Str "") stub.init eq_refl)).
Defined.


(** ** Dependency, membership and numeric rules *)

(** X15. Dependency rules compose: a dependency rule whose child is
    itself a dependency rule validates as one dependency rule with the
    two getters run one after the other. *)
Theorem Dependency_compose {V T D E} (f1 d1 f2 d2 : string)
    (g1 : T -> M V D) (g2 : D -> M V E) (child : rule.Rule V E) (value : T)
    (s : State V) :
  rule.DependencyRule.Validate
    (rule.Dependency f1 d1
       (Some (rule.DependencyRule.Validate
                (rule.Dependency f2 d2 (Some child) (Some g2))))
       (Some g1)) value s
  = rule.DependencyRule.Validate
      (rule.Dependency f1 d1 (Some child)
         (Some (fun v => let* x := g1 v in g2 x))) value s.
Proof.
  cbn. unfold bind. now destruct (g1 value s).
Qed.

Section Membership.
Context {V : Type}.
Implicit Types (values : list Z) (value : Z) (s : State V).

Lemma Contains_In values value :
  rule.InRule.Contains values value = true <-> List.In value values.
Proof.
  induction values as [| x xs IH]; cbn.
  - split; [discriminate | tauto].
  - destruct (Z.eqb_spec value x) as [-> | Hne].
    + split; auto.
    + rewrite IH. split; [auto |]. intros [Heq | Hin]; [congruence | exact Hin].
Qed.

Lemma Contains_app xs ys value :
  rule.InRule.Contains (xs ++ ys) value
  = rule.InRule.Contains xs value || rule.InRule.Contains ys value.
Proof.
  induction xs as [| x xs IH]; cbn; [reflexivity |].
  now destruct (value =? x)%Z.
Qed.

Lemma scan_Contains values value :
  rule.MutualExcludeRule.scan Z.eqb values value = rule.InRule.Contains values value.
Proof.
  induction values as [| x xs IH]; cbn; [reflexivity |].
  rewrite IH, (Z.eqb_sym x value). reflexivity.
Qed.

Lemma In_Validate values value s :
  rule.InRule.Validate (rule.In values) value s
  = Ret (if rule.InRule.Contains values value then nil_error else rule.ErrIn) s.
Proof.
  unfold rule.InRule.Validate. cbn. now destruct (rule.InRule.Contains values value).
Qed.

Lemma NotIn_Validate values value s :
  rule.InRule.Validate (rule.NotIn values) value s
  = Ret (if rule.InRule.Contains values value then rule.ErrNotIn else nil_error) s.
Proof.
  unfold rule.InRule.Validate. cbn. now destruct (rule.InRule.Contains values value).
Qed.

Lemma rem2_even value : (Z.rem value 2 =? 0)%Z = Z.even value.
Proof.
  destruct (Z.eqb_spec (Z.rem value 2) 0) as [H | H].
  - symmetry. apply Z.even_spec. apply Z.rem_divide in H as [z ->]; [| discriminate].
    exists z. apply Z.mul_comm.
  - destruct (Z.even value) eqn:He; [| reflexivity]. exfalso. apply H.
    apply Z.rem_divide; [discriminate |]. apply Z.even_spec in He as [z ->].
    exists z. apply Z.mul_comm.
Qed.

End Membership.

(** X16. [In(values...)] returns nil exactly when the value is in the
    list and [ErrIn] otherwise; [NotIn(values...)] returns nil exactly
    when it is not and [ErrNotIn] otherwise.  So every value passes
    exactly one of the two, and with an empty list [In] rejects and
    [NotIn] accepts everything. *)
Theorem In_NotIn_membership {V} (values : list Z) (value : Z) (s : State V) :
  (List.In value values ->
   rule.InRule.Validate (rule.In values) value s = Ret nil_error s /\
   rule.InRule.Validate (rule.NotIn values) value s = Ret rule.ErrNotIn s) /\
  (~ List.In value values ->
   rule.InRule.Validate (rule.In values) value s = Ret rule.ErrIn s /\
   rule.InRule.Validate (rule.NotIn values) value s = Ret nil_error s) /\
  rule.InRule.Validate (rule.In []) value s = Ret rule.ErrIn s /\
  rule.InRule.Validate (rule.NotIn []) value s = Ret nil_error s.
Proof.
  rewrite !In_Validate, !NotIn_Validate. repeat split.
  - apply Contains_In in H. now rewrite H.
  - apply Contains_In in H. now rewrite H.
  - destruct (rule.InRule.Contains values value) eqn:Hc; [| reflexivity].
    apply Contains_In in Hc. contradiction.
  - destruct (rule.InRule.Contains values value) eqn:Hc; [| reflexivity].
    apply Contains_In in Hc. contradiction.
Qed.

Lemma In_NotIn_membership_witness :
  rule.InRule.Validate (rule.In [1; 2; 3]%Z) 2%Z (stub.init (V := Z))
    = Ret nil_error stub.init /\
  rule.InRule.Validate (rule.NotIn [1; 2; 3]%Z) 5%Z (stub.init (V := Z))
    = Ret nil_error stub.init.
Proof.
  split.
  - apply (proj1 (In_NotIn_membership (V := Z) [1; 2; 3]%Z 2%Z stub.init)).
    cbn. auto.
  - apply (proj1 (proj2 (In_NotIn_membership (V := Z) [1; 2; 3]%Z 5%Z stub.init))).
    cbn. intros [H | [H | [H | []]]]; discriminate H.
Defined.

(** X17. On integers, [MutualExclude(fields, values, ==)] and
    [In(values...)] accept the same values. *)
Theorem MutualExclude_is_In {V} (fields : list string) (values : list Z) (value : Z)
    (s : State V) :
  rule.MutualExcludeRule.Validate
    (rule.MutualExclude fields values (Some Z.eqb)) value s = Ret nil_error s
  <-> rule.InRule.Validate (rule.In values) value s = Ret nil_error s.
Proof.
  rewrite In_Validate. unfold rule.MutualExcludeRule.Validate. cbn.
  rewrite scan_Contains.
  destruct (rule.InRule.Contains values value); cbn; split;
    (reflexivity || discriminate).
Qed.

(** X18. A disjunction of membership rules is membership in the
    concatenated list: [Or(In(a...), In(b...))] accepts exactly the
    values [In(a..., b...)] accepts. *)
Theorem Or_In_union {V} (a b : list Z) (value : Z) (s : State V) :
  rule.ConditionRule.Validate
    (rule.Or [rule.InRule.Validate (rule.In a); rule.InRule.Validate (rule.In b)])
    value s = Ret nil_error s
  <-> rule.InRule.Validate (rule.In (a ++ b)) value s = Ret nil_error s.
Proof.
  change (rule.ConditionRule.or_loop rule.ErrCondition
            [rule.InRule.Validate (rule.In a); rule.InRule.Validate (rule.In b)]
            value s = Ret nil_error s
          <-> rule.InRule.Validate (rule.In (a ++ b)) value s = Ret nil_error s).
  cbn [rule.ConditionRule.or_loop]. unfold bind.
  rewrite !In_Validate, Contains_app.
  destruct (rule.InRule.Contains a value); cbn; [tauto |].
  rewrite In_Validate.
  destruct (rule.InRule.Contains b value); cbn; split;
    (reflexivity || discriminate).
Qed.

(** X19. [Validate(value, Min(lo), Max(hi))] returns [ErrMin] below
    [lo], else [ErrMax] above [hi], else nil; it returns nil exactly
    when [Between(lo, hi)] does, that is when [lo <= value <= hi].  With
    [hi < lo], [Between(lo, hi)] rejects every value. *)
Theorem Min_Max_Between {V} (lo hi value : Z) (s : State V) :
  arbiter.Validate value
    [rule.MinRule.Validate (rule.Min lo); rule.MaxRule.Validate (rule.Max hi)] s
  = Ret (if (value <? lo)%Z then rule.ErrMin
         else if (value >? hi)%Z then rule.ErrMax else nil_error) s /\
  (rule.BetweenRule.Validate (rule.Between lo hi) value s = Ret nil_error s
   <-> (lo <= value <= hi)%Z) /\
  (arbiter.Validate value
     [rule.MinRule.Validate (rule.Min lo); rule.MaxRule.Validate (rule.Max hi)] s
   = Ret nil_error s
   <-> rule.BetweenRule.Validate (rule.Between lo hi) value s = Ret nil_error s) /\
  ((hi < lo)%Z ->
   rule.BetweenRule.Validate (rule.Between lo hi) value s
   = Ret (fmt_Errorf rule.ErrBetweenFormat [rule.int_any lo; rule.int_any hi]) s).
Proof.
  assert (Hpair : arbiter.Validate value
            [rule.MinRule.Validate (rule.Min lo); rule.MaxRule.Validate (rule.Max hi)] s
          = Ret (if (value <? lo)%Z then rule.ErrMin
                 else if (value >? hi)%Z then rule.ErrMax else nil_error) s).
  { cbn. unfold bind, rule.MinRule.Validate, rule.MaxRule.Validate. cbn.
    destruct (value <? lo)%Z; [reflexivity |]. cbn.
    destruct (value >? hi)%Z; reflexivity. }
  assert (Hbetween : rule.BetweenRule.Validate (rule.Between lo hi) value s
          = Ret (if (value <? lo)%Z || (value >? hi)%Z
                 then fmt_Errorf rule.ErrBetweenFormat [rule.int_any lo; rule.int_any hi]
                 else nil_error) s).
  { unfold rule.BetweenRule.Validate. cbn.
    destruct ((value <? lo)%Z || (value >? hi)%Z); reflexivity. }
  rewrite Hpair, Hbetween.
  destruct (Z.ltb_spec value lo) as [Hlo | Hlo];
    destruct (Z.gtb_spec value hi) as [Hhi | Hhi]; cbn;
    repeat split; intros; try discriminate; try reflexivity; try lia.
Qed.

Lemma Min_Max_Between_witness :
  rule.BetweenRule.Validate (rule.Between 10 0) 5%Z (stub.init (V := Z))
  = Ret (fmt_Errorf rule.ErrBetweenFormat [rule.int_any 10; rule.int_any 0]) stub.init.
Proof.
  apply (proj2 (proj2 (proj2 (Min_Max_Between (V := Z) 10 0 5 stub.init)))).
  reflexivity.
Defined.

(** X20. Every integer passes exactly one of [Even] and [Odd], the
    negative ones included (where the remainder of Go's [%] is -1): an
    even value passes [Even] and gets [ErrOdd] from [Odd], an odd value
    passes [Odd] and gets [ErrEven] from [Even]. *)
Theorem Even_Odd_complementary {V} (value : Z) (s : State V) :
  rule.EvenRule.Validate rule.Even value s
    = Ret (if Z.even value then nil_error else rule.ErrEven) s /\
  rule.OddRule.Validate rule.Odd value s
    = Ret (if Z.even value then rule.ErrOdd else nil_error) s.
Proof.
  unfold rule.EvenRule.Validate, rule.OddRule.Validate.
  rewrite rem2_even. now destruct (Z.even value).
Qed.

(** X21. [MultipleOf(0).Validate] panics on every value (a remainder by
    zero).  For a non-zero base, [MultipleOf(base)] returns nil exactly
    when [base] divides the value, and its "is not a multiple of" error
    otherwise; [MultipleOf(2)] accepts what [Even] accepts. *)
Theorem MultipleOf_divides {V} (base value : Z) (s : State V) :
  (base = 0%Z -> rule.MultipleRule.Validate (rule.MultipleOf base) value s = Panic) /\
  (base <> 0%Z ->
   ((base | value)%Z ->
    rule.MultipleRule.Validate (rule.MultipleOf base) value s = Ret nil_error s) /\
   (~ (base | value)%Z ->
    rule.MultipleRule.Validate (rule.MultipleOf base) value s
    = Ret (fmt_Errorf rule.ErrMultipleFormat [rule.int_any base]) s)) /\
  (rule.MultipleRule.Validate (rule.MultipleOf 2) value s = Ret nil_error s
   <-> rule.EvenRule.Validate rule.Even value s = Ret nil_error s).
Proof.
  split; [| split].
  - intros ->. reflexivity.
  - intros Hne. unfold rule.MultipleRule.Validate. cbn.
    destruct (Z.eqb_spec base 0) as [H | _]; [contradiction |].
    unfold bind, ret.
    destruct (Z.eqb_spec (Z.rem value base) 0) as [Hr | Hr]; cbn.
    + apply Z.rem_divide in Hr; [| exact Hne]. split; [reflexivity | tauto].
    + split; [| reflexivity]. intros Hd. exfalso. apply Hr.
      now apply Z.rem_divide.
  - unfold rule.MultipleRule.Validate, rule.EvenRule.Validate. cbn. unfold bind, ret.
    destruct (Z.rem value 2 =? 0)%Z; cbn; split; (reflexivity || discriminate).
Qed.

Lemma MultipleOf_divides_witness :
  rule.MultipleRule.Validate (rule.MultipleOf 0) 6%Z (stub.init (V := Z)) = Panic /\
  rule.MultipleRule.Validate (rule.MultipleOf (-3)) 6%Z (stub.init (V := Z))
    = Ret nil_error stub.init.
Proof.
  split.
  - exact (proj1 (MultipleOf_divides (V := Z) 0 6 stub.init) eq_refl).
  - apply (proj1 (proj2 (MultipleOf_divides (V := Z) (-3) 6 stub.init))).
    + discriminate.
    + exists (-2)%Z. reflexivity.
Defined.

(** ** Splitting a rule list *)

Section Append.
Context {V T : Type}.
Implicit Types (value : T) (rs : list (rule.Rule V T)) (s : State V).

Lemma collect_app value rs1 rs2 errs s :
  arbiter.collect value (rs1 ++ rs2) errs s
  = match arbiter.collect value rs1 errs s with
    | Ret errs1 s1 => arbiter.collect value rs2 errs1 s1
    | Panic => Panic
    end.
Proof.
  revert errs s. induction rs1 as [| r rs1 IH]; intros errs s; [reflexivity |].
  cbn [app arbiter.collect]. unfold bind.
  destruct (r value s) as [err s1 |]; [| reflexivity].
  destruct (negb (is_nil err)); apply IH.
Qed.

Lemma collect_prefix value rs errs acc s :
  arbiter.collect value rs (acc ++ errs) s
  = match arbiter.collect value rs errs s with
    | Ret out s' => Ret (acc ++ out) s'
    | Panic => Panic
    end.
Proof.
  revert errs s. induction rs as [| r rs IH]; intros errs s; [reflexivity |].
  cbn [arbiter.collect]. unfold bind.
  destruct (r value s) as [err s1 |]; [| reflexivity].
  destruct (negb (is_nil err)); [| apply IH].
  rewrite <- app_assoc. apply IH.
Qed.

End Append.

(** X22. Collecting over a concatenated rule list is collecting over
    the first part and then, in the state it left, over the second: the
    returned list is the concatenation of the two lists. *)
Theorem ValidateWithErrs_app {V T} (value : T) (rules1 rules2 : list (rule.Rule V T))
    (s : State V) (errs1 : list error) (s1 : State V) (errs2 : list error)
    (s2 : State V) :
  arbiter.ValidateWithErrs value rules1 s = Ret errs1 s1 ->
  arbiter.ValidateWithErrs value rules2 s1 = Ret errs2 s2 ->
  arbiter.ValidateWithErrs value (rules1 ++ rules2) s = Ret (errs1 ++ errs2) s2.
Proof.
  unfold arbiter.ValidateWithErrs. intros H1 H2.
  rewrite collect_app, H1.
  rewrite <- (app_nil_r errs1) at 1. now rewrite collect_prefix, H2.
Qed.

Lemma ValidateWithErrs_app_witness :
  arbiter.ValidateWithErrs 5%Z
    ([stub.at_least 10 (errors_New "a")] ++
     [stub.at_least 0 (errors_New "b"); stub.at_least 7 (errors_New "c")])
    (stub.init (V := Z))
  = Ret ([errors_New "a"] ++ [errors_New "c"]) stub.init.
Proof.
  apply (ValidateWithErrs_app (V := Z) 5%Z [stub.at_least 10 (errors_New "a")]
           [stub.at_least 0 (errors_New "b"); stub.at_least 7 (errors_New "c")]
           stub.init (s1 := stub.init)); reflexivity.
Defined.

(** X23. Validating against a concatenated rule list is validating
    against the first part and, only if that returned nil, against the
    second part in the state the first left. *)
Theorem Validate_app {V T} (value : T) (rules1 rules2 : list (rule.Rule V T))
    (s : State V) :
  arbiter.Validate value (rules1 ++ rules2) s
  = match arbiter.Validate value rules1 s with
    | Ret err s1 =>
        if negb (is_nil err) then Ret err s1 else arbiter.Validate value rules2 s1
    | Panic => Panic
    end.
Proof.
  revert s. induction rules1 as [| r rs IH]; intros s; [reflexivity |].
  cbn [app arbiter.Validate]. unfold bind.
  destruct (r value s) as [err s1 |]; [| reflexivity].
  destruct err; cbn [is_nil negb]; [apply IH | reflexivity | reflexivity].
Qed.

(** X24. With a single child, [And] and [Or] are the same rule: both
    return nil when the child does, and [ErrCondition] when the child
    returns an error. *)
Theorem And_Or_single {V T} (child : rule.Rule V T) (value : T) (s : State V) :
  rule.ConditionRule.Validate (rule.And [child]) value s
  = rule.ConditionRule.Validate (rule.Or [child]) value s /\
  rule.ConditionRule.Validate (rule.And [child]) value s
  = match child value s with
    | Ret err s' => Ret (if is_nil err then nil_error else rule.ErrCondition) s'
    | Panic => Panic
    end.
Proof.
  change (rule.ConditionRule.and_loop rule.ErrCondition [child] value s
          = rule.ConditionRule.or_loop rule.ErrCondition [child] value s /\
          rule.ConditionRule.and_loop rule.ErrCondition [child] value s
          = match child value s with
            | Ret err s' => Ret (if is_nil err then nil_error else rule.ErrCondition) s'
            | Panic => Panic
            end).
  cbn. unfold bind. destruct (child value s) as [err s1 |]; [| now split].
  destruct err; split; reflexivity.
Qed.
